(** * sm_device_tagging.py: tag reconciliation for Systems Manager devices

    A shallow embedding of [src/sm_device_tagging.py]: [main] with its
    device loop (classification and the four action queues), the batch
    executor [batch_modify_tags] and the name resolver
    [resolve_network_id].

    Device records are the dictionaries the dashboard client returns, so a
    device is a finite map from field names to Python values, and
    [device.get(k)] is a lookup that yields [None] for a missing key.

    The script logs through a [RichHandler] with [markup=True], which
    raises on text it cannot parse as markup; every [logger] call is
    therefore a step that may raise, and the properties below hold for
    whatever the handler answers. *)

From stdpp Require Import base option list strings gmap.
From Stdlib Require Import ZArith Lia.

Set Warnings "-register-all".
Open Scope string_scope.
Open Scope list_scope.
Open Scope nat_scope.

(** ** Python values *)

(** The values a decoded JSON record can hold; numbers are kept as
    integers, and a string is the UTF-8 encoding of the Python string. *)
Inductive value : Type :=
  | VNone
  | VBool (b : bool)
  | VNum (n : Z)
  | VStr (s : string)
  | VList (l : list value)
  | VDict (kv : list (string * value)).

(** Exceptions the modelled code can raise. *)
Inductive exn : Type :=
  | TypeError
  | ValueError (msg : string)
  | RemoteError
  | MarkupError.

Inductive result (A : Type) : Type :=
  | Ok (a : A)
  | Raise (e : exn).
Arguments Ok {A} a.
Arguments Raise {A} e.

(** Raising propagates: the error monad, with stdpp's [x ← r; k]. *)
#[export] Instance result_ret : MRet result := fun _ a => Ok a.
#[export] Instance result_bind : MBind result := fun _ _ k r =>
  match r with
  | Ok a => k a
  | Raise e => Raise e
  end.

(** [bool(v)]: Python truthiness. *)
Definition truthy (v : value) : bool :=
  match v with
  | VNone => false
  | VBool b => b
  | VNum n => negb (n =? 0)%Z
  | VStr s => negb (String.eqb s "")
  | VList l => negb (Nat.eqb (length l) 0)
  | VDict kv => negb (Nat.eqb (length kv) 0)
  end.

(** [v is None]. *)
Definition is_none (v : value) : bool :=
  match v with
  | VNone => true
  | _ => false
  end.

(** [a or b]. *)
Definition py_or (a b : value) : value := if truthy a then a else b.

(** Lists and dictionaries are unhashable; [set(...)] raises on them. *)
Definition hashable (v : value) : bool :=
  match v with
  | VList _ | VDict _ => false
  | _ => true
  end.

(** A continuation byte of a UTF-8 sequence: [10xxxxxx]. *)
Definition is_continuation (c : Ascii.ascii) : bool :=
  let n := Ascii.nat_of_ascii c in (128 <=? n) && (n <? 192).

(** The characters of a Python string: each lead byte with the
    continuation bytes that follow it. *)
Fixpoint code_points (s : string) : list string :=
  match s with
  | EmptyString => []
  | String c rest =>
      let chars := code_points rest in
      match rest with
      | String c' _ =>
          if is_continuation c' then
            match chars with
            | first :: others => String c first :: others
            | [] => [String c EmptyString]
            end
          else String c EmptyString :: chars
      | EmptyString => String c EmptyString :: chars
      end
  end.

(** [set(v)]: the elements [v] iterates over.  A set is kept as the list
    of its elements; the code only ever tests membership in it.  A string
    iterates over its characters, a dictionary over its keys, and a
    value that is not iterable raises. *)
Definition py_set (v : value) : result (list value) :=
  match v with
  | VList l => if forallb hashable l then Ok l else Raise TypeError
  | VStr s => Ok (map VStr (code_points s))
  | VDict kv => Ok (map (fun p => VStr (fst p)) kv)
  | VNone | VBool _ | VNum _ => Raise TypeError
  end.

(** [t in ts] for a string [t]: a string equals no value of another type. *)
Definition is_str (t : string) (v : value) : bool :=
  match v with
  | VStr s => String.eqb s t
  | _ => false
  end.

Definition tag_in (t : string) (ts : list value) : bool := existsb (is_str t) ts.

(** ** Devices *)

Abbreviation device := (gmap string value).

(** [device.get(k)] *)
Definition get (d : device) (k : string) : value := default VNone (d !! k).

(** The four cellular-evidence fields, as [main] collects them. *)
Definition fields (d : device) : list value :=
  [get d "imei"; get d "iccid"; get d "simCarrierNetwork"; get d "phoneNumber"].

(** [has_cell = not all(f is None for f in fields)] *)
Definition has_cell (d : device) : bool := negb (forallb is_none (fields d)).

(** [current_tags = set(device.get("tags") or [])] *)
Definition current_tags (d : device) : result (list value) :=
  py_set (py_or (get d "tags") (VList [])).

(** ** The command line *)

Record args : Type := {
  cellular_tag : string;
  wifi_tag : string;
  remove_wrong : bool
}.

Definition DEFAULT_CELLULAR_TAG : string := "Store_Ipad".
Definition DEFAULT_WIFI_ONLY_TAG : string := "Curbside_iPad".

Definition default_args (remove : bool) : args :=
  {| cellular_tag := DEFAULT_CELLULAR_TAG;
     wifi_tag := DEFAULT_WIFI_ONLY_TAG;
     remove_wrong := remove |}.

(** ** Logging *)

(** The [logger] calls of the script, each with the values its message
    is formatted from. *)
Inductive log_line : Type :=
  | ErrorApiKeyMissing
  | InfoResolved (network_name network_id : string)
  | ErrorException (e : exn)
  | InfoTotal (n : nat)
  | InfoProcessing (d : device)
  | InfoMissingCellular (device_id : value) (current_tags : list value) (cellular_tag : string)
  | InfoMissingWifi (device_id : value) (current_tags : list value) (wifi_tag : string)
  | InfoAlreadyCorrect (device_id : value) (correct_tag : string)
  | InfoStrayWifi (device_id : value) (wrong_tag : string)
  | InfoStrayCellular (device_id : value) (wrong_tag : string)
  | InfoTagging (n : nat) (tag : string)
  | InfoRemovingFromWifiOnly (tag : string) (n : nat)
  | InfoRemovingFromCellular (tag : string) (n : nat)
  | InfoComplete.

(** What the handlers answer to a line: they write it, or the markup
    rendering raises.  Nothing is assumed about which lines raise. *)
Abbreviation Logger := (log_line → result unit).

(** ** The device loop of [main] *)

(** The four lists [main] fills.  Identifiers are whatever value the
    record carries under ["id"]. *)
Record queues : Type := {
  tag_cellular : list value;
  tag_wifi : list value;
  untag_cellular : list value;
  untag_wifi : list value
}.

Definition no_queues : queues :=
  {| tag_cellular := []; tag_wifi := []; untag_cellular := []; untag_wifi := [] |}.

Definition append_tag_cellular (q : queues) (i : value) : queues :=
  {| tag_cellular := tag_cellular q ++ [i]; tag_wifi := tag_wifi q;
     untag_cellular := untag_cellular q; untag_wifi := untag_wifi q |}.

Definition append_tag_wifi (q : queues) (i : value) : queues :=
  {| tag_cellular := tag_cellular q; tag_wifi := tag_wifi q ++ [i];
     untag_cellular := untag_cellular q; untag_wifi := untag_wifi q |}.

Definition append_untag_cellular (q : queues) (i : value) : queues :=
  {| tag_cellular := tag_cellular q; tag_wifi := tag_wifi q;
     untag_cellular := untag_cellular q ++ [i]; untag_wifi := untag_wifi q |}.

Definition append_untag_wifi (q : queues) (i : value) : queues :=
  {| tag_cellular := tag_cellular q; tag_wifi := tag_wifi q;
     untag_cellular := untag_cellular q; untag_wifi := untag_wifi q ++ [i] |}.

(** [correct_tag] and [wrong_tag], from the capability flag. *)
Definition correct_tag (a : args) (has_cell : bool) : string :=
  if has_cell then cellular_tag a else wifi_tag a.

Definition wrong_tag (a : args) (has_cell : bool) : string :=
  if has_cell then wifi_tag a else cellular_tag a.

(** One iteration of [for device in devices], on the queues built so far. *)
Definition process_device (logger : Logger) (a : args) (q : queues) (d : device)
    : result queues :=
  _ ← logger (InfoProcessing d);
  let device_id := get d "id" in
  if negb (truthy device_id) then Ok q
  else
    let has_cell := has_cell d in
    current_tags ← current_tags d;
    let correct_tag := correct_tag a has_cell in
    q1 ← (if negb (tag_in correct_tag current_tags) then
            if has_cell then
              _ ← logger (InfoMissingCellular device_id current_tags (cellular_tag a));
              Ok (append_tag_cellular q device_id)
            else
              _ ← logger (InfoMissingWifi device_id current_tags (wifi_tag a));
              Ok (append_tag_wifi q device_id)
          else
            _ ← logger (InfoAlreadyCorrect device_id correct_tag);
            Ok q);
    if remove_wrong a then
      let wrong_tag := wrong_tag a has_cell in
      if tag_in wrong_tag current_tags then
        if has_cell then
          _ ← logger (InfoStrayWifi device_id wrong_tag);
          Ok (append_untag_wifi q1 device_id)
        else
          _ ← logger (InfoStrayCellular device_id wrong_tag);
          Ok (append_untag_cellular q1 device_id)
      else Ok q1
    else Ok q1.

Fixpoint loop (logger : Logger) (a : args) (q : queues) (devices : list device)
    : result queues :=
  match devices with
  | [] => Ok q
  | d :: rest => q' ← process_device logger a q d; loop logger a q' rest
  end.

(** The plan: the queues after the loop, starting from four empty lists. *)
Definition plan (logger : Logger) (a : args) (devices : list device) : result queues :=
  loop logger a no_queues devices.

(** A handler that writes every line. *)
Definition quiet : Logger := fun _ => Ok tt.


(** Componentwise concatenation of two plans. *)
Definition qapp (p q : queues) : queues :=
  {| tag_cellular := tag_cellular p ++ tag_cellular q;
     tag_wifi := tag_wifi p ++ tag_wifi q;
     untag_cellular := untag_cellular p ++ untag_cellular q;
     untag_wifi := untag_wifi p ++ untag_wifi q |}.

(** The plan of a single processed device with tag set [ts], queue by
    queue. *)
Definition single_plan (a : args) (d : device) (ts : list value) : queues :=
  let i := get d "id" in
  {| tag_cellular :=
       if has_cell d && negb (tag_in (cellular_tag a) ts) then [i] else [];
     tag_wifi :=
       if negb (has_cell d) && negb (tag_in (wifi_tag a) ts) then [i] else [];
     untag_cellular :=
       if remove_wrong a && negb (has_cell d) && tag_in (cellular_tag a) ts then [i] else [];
     untag_wifi :=
       if remove_wrong a && has_cell d && tag_in (wifi_tag a) ts then [i] else [] |}.

(** [i] is in one of the four queues. *)
Definition queued (i : value) (p : queues) : Prop :=
  i ∈ tag_cellular p ∨ i ∈ tag_wifi p ∨ i ∈ untag_cellular p ∨ i ∈ untag_wifi p.

Definition add_queues (q : queues) : list value * list value :=
  (tag_cellular q, tag_wifi q).

#[export] Instance result_fmap : FMap result := fun _ _ f r =>
  match r with
  | Ok a => Ok (f a)
  | Raise e => Raise e
  end.

(** The identifiers of the records the loop does not skip. *)
Definition processed_ids (devices : list device) : list value :=
  filter (fun v => truthy v = true) (map (fun d => get d "id") devices).

(** ** What the loop decides for one record *)

(** The tag set the loop works with; empty where reading it raises. *)
Definition tags_of (d : device) : list value :=
  match current_tags d with
  | Ok ts => ts
  | Raise _ => []
  end.

(** The record passes the [if not device_id: continue] test. *)
Definition processed (d : device) : bool := truthy (get d "id").

(** The conditions under which the loop reaches each [append]. *)
Definition needs_cellular_tag (a : args) (d : device) : bool :=
  processed d && has_cell d && negb (tag_in (cellular_tag a) (tags_of d)).

Definition needs_wifi_tag (a : args) (d : device) : bool :=
  processed d && negb (has_cell d) && negb (tag_in (wifi_tag a) (tags_of d)).

Definition has_stray_cellular_tag (a : args) (d : device) : bool :=
  remove_wrong a && processed d && negb (has_cell d) && tag_in (cellular_tag a) (tags_of d).

Definition has_stray_wifi_tag (a : args) (d : device) : bool :=
  remove_wrong a && processed d && has_cell d && tag_in (wifi_tag a) (tags_of d).

(** The identifiers of the records that satisfy [f], in input order. *)
Definition ids_where (f : device → bool) (devices : list device) : list value :=
  map (fun d => get d "id") (List.filter f devices).

(** What one record adds to the queues. *)
Definition device_plan (a : args) (d : device) : queues :=
  if processed d then single_plan a d (tags_of d) else no_queues.

(** The values of ["tags"] on which [set(... or [])] raises: [True], a
    non-zero number, and a list that holds a list or a dictionary. *)
Definition unreadable (v : value) : bool :=
  match v with
  | VBool b => b
  | VNum n => negb (n =? 0)%Z
  | VList l => negb (forallb hashable l)
  | _ => false
  end.

(** Writing lines one after the other, up to the first that raises. *)
Fixpoint say_all (logger : Logger) (lines : list log_line) : result unit :=
  match lines with
  | [] => Ok tt
  | line :: rest => _ ← logger line; say_all logger rest
  end.

(** The lines one iteration writes when none raises: the record, then,
    for a processed record with a readable tag set, the add decision and
    the remove decision. *)
Definition device_lines (a : args) (d : device) : list log_line :=
  InfoProcessing d ::
  (if processed d then
     match current_tags d with
     | Raise _ => []
     | Ok ts =>
         let i := get d "id" in
         let hc := has_cell d in
         (if tag_in (correct_tag a hc) ts then [InfoAlreadyCorrect i (correct_tag a hc)]
          else if hc then [InfoMissingCellular i ts (cellular_tag a)]
          else [InfoMissingWifi i ts (wifi_tag a)]) ++
         (if remove_wrong a && tag_in (wrong_tag a hc) ts then
            if hc then [InfoStrayWifi i (wrong_tag a hc)]
            else [InfoStrayCellular i (wrong_tag a hc)]
          else [])
     end
   else []).

(** What one iteration computes, logging apart. *)
Definition device_result (a : args) (d : device) : result queues :=
  if processed d then ts ← current_tags d; Ok (single_plan a d ts) else Ok no_queues.

(** ** The dashboard client *)

(** One call of [dashboard.sm.modifyNetworkSmDevicesTags]. *)
Record mutation : Type := {
  networkId : string;
  ids : list value;
  tags : list string;
  updateAction : string
}.

Record organization : Type := { org_id : string; org_name : string }.
Record network : Type := { net_id : string; net_name : string }.

(** The client as the script uses it.  The two reads return the complete
    list ([total_pages='all']); [getOrganizationNetworks] takes the
    organization id and the [productType] filter, which the service
    applies.  A mutation is accepted or raises. *)
Record Dashboard : Type := {
  getOrganizations : list organization;
  getOrganizationNetworks : string → list string → list network;
  modifyNetworkSmDevicesTags : mutation → result unit
}.

(** ** [batch_modify_tags] *)

(** Code that calls the service: the calls issued so far are threaded
    through, and stay issued when a later call raises. *)
Definition sm (A : Type) : Type := list mutation → result A * list mutation.

Definition sm_ret {A} (a : A) : sm A := fun log => (Ok a, log).

Definition sm_bind {A B} (c : sm A) (k : A → sm B) : sm B := fun log =>
  match c log with
  | (Ok a, log') => k a log'
  | (Raise e, log') => (Raise e, log')
  end.

Definition issue (dashboard : Dashboard) (m : mutation) : sm unit := fun log =>
  (modifyNetworkSmDevicesTags dashboard m, log ++ [m]).

Fixpoint for_each {A} (l : list A) (body : A → sm unit) : sm unit :=
  match l with
  | [] => sm_ret tt
  | x :: rest => sm_bind (body x) (fun _ => for_each rest body)
  end.

(** [range(start, stop, step)] for a positive step.  At most
    [stop - start] numbers lie between the bounds, so that much fuel is
    never used up. *)
Fixpoint range_from (fuel i stop step : nat) : list nat :=
  match fuel with
  | O => []
  | S fuel' => if i <? stop then i :: range_from fuel' (i + step) stop step else []
  end.

Definition py_range (start stop step : nat) : list nat :=
  range_from (stop - start) start stop step.

(** [l[i:j]] for [0 <= i <= j]; a slice past the end is cut short. *)
Definition slice {A} (l : list A) (i j : nat) : list A := take (j - i) (drop i l).

Definition max_batch : nat := 20.

(** The slices the loop of [batch_modify_tags] walks through. *)
Definition batches (serials : list value) : list (list value) :=
  map (fun i => slice serials i (i + max_batch)) (py_range 0 (length serials) max_batch).

Definition batch_modify_tags (dashboard : Dashboard) (network_id : string)
    (serials : list value) (tag action : string) : sm unit :=
  for_each (py_range 0 (length serials) max_batch) (fun i =>
    let batch := slice serials i (i + max_batch) in
    issue dashboard
      {| networkId := network_id; ids := batch; tags := [tag]; updateAction := action |}).

(** The calls [batch_modify_tags] makes when none raises. *)
Definition batch_calls (network_id : string) (serials : list value)
    (tag action : string) : list mutation :=
  map (fun batch =>
         {| networkId := network_id; ids := batch; tags := [tag]; updateAction := action |})
      (batches serials).

(** Run a service computation from an empty call log. *)
Definition run {A} (c : sm A) : result A * list mutation := c [].

(** A [logger] call inside code that calls the service. *)
Definition say (logger : Logger) (line : log_line) : sm unit := fun log =>
  (logger line, log).

(** The tail of [main]: the four queues, in the order the script submits
    them, each announced and sent only when it is not empty. *)
Definition submit (logger : Logger) (dashboard : Dashboard) (network_id : string)
    (a : args) (q : queues) : sm unit :=
  let when (b : bool) (c : sm unit) : sm unit := if b then c else sm_ret tt in
  sm_bind (when (0 <? length (tag_cellular q))
    (sm_bind (say logger (InfoTagging (length (tag_cellular q)) (cellular_tag a))) (fun _ =>
     batch_modify_tags dashboard network_id (tag_cellular q) (cellular_tag a) "add"))) (fun _ =>
  sm_bind (when (0 <? length (tag_wifi q))
    (sm_bind (say logger (InfoTagging (length (tag_wifi q)) (wifi_tag a))) (fun _ =>
     batch_modify_tags dashboard network_id (tag_wifi q) (wifi_tag a) "add"))) (fun _ =>
  when (remove_wrong a)
    (sm_bind (when (truthy (VList (untag_cellular q)))
      (sm_bind
         (say logger (InfoRemovingFromWifiOnly (cellular_tag a) (length (untag_cellular q))))
         (fun _ =>
          batch_modify_tags dashboard network_id (untag_cellular q) (cellular_tag a)
            "delete"))) (fun _ =>
     when (truthy (VList (untag_wifi q)))
      (sm_bind
         (say logger (InfoRemovingFromCellular (wifi_tag a) (length (untag_wifi q))))
         (fun _ =>
          batch_modify_tags dashboard network_id (untag_wifi q) (wifi_tag a) "delete")))))).

(** [ceil(n / m)] on the naturals. *)
Definition ceil_div (n m : nat) : nat := (n + (m - 1)) / m.
Arguments ceil_div : simpl never.

(** ** [resolve_network_id] *)

Section Resolver.
(** [str.lower]; the resolver only compares lowered names, so any
    lowering function does. *)
Variable lower : string → string.

Definition same_name (x y : string) : bool := String.eqb (lower x) (lower y).

Definition resolve_network_id (dashboard : Dashboard)
    (network_name organization_name : string) : result string :=
  let orgs := getOrganizations dashboard in
  match find (fun o => same_name (org_name o) organization_name) orgs with
  | None => Raise (ValueError ("Organization '" +:+ organization_name +:+ "' not found"))
  | Some org =>
      let networks := getOrganizationNetworks dashboard (org_id org) ["systemsManager"] in
      match find (fun n => same_name (net_name n) network_name) networks with
      | None =>
          Raise (ValueError ("Network '" +:+ network_name +:+
                             "' not found in organization '" +:+ organization_name +:+ "'"))
      | Some net => Ok (net_id net)
      end
  end.

(** [x] is the first element of [l] that satisfies [P]. *)
Definition first_match {A} (P : A → Prop) (l : list A) (x : A) : Prop :=
  ∃ l1 l2, l = l1 ++ x :: l2 ∧ P x ∧ Forall (fun y => ¬ P y) l1.
End Resolver.

(** Lowering of the ASCII letters only, to run the resolver on concrete
    ASCII names; on other text [str.lower] does more. *)
Definition ascii_lower (c : Ascii.ascii) : Ascii.ascii :=
  let n := Ascii.nat_of_ascii c in
  if (65 <=? n) && (n <=? 90) then Ascii.ascii_of_nat (n + 32) else c.

Fixpoint str_lower (s : string) : string :=
  match s with
  | EmptyString => EmptyString
  | String c rest => String (ascii_lower c) (str_lower rest)
  end.

(** ** The inventory after a plan is carried out *)

(** What the service does to a tag set on an accepted ["add"] and
    ["delete"] of one tag. *)
Definition add_tag (t : string) (ts : list value) : list value :=
  if tag_in t ts then ts else ts ++ [VStr t].

Definition delete_tag (t : string) (ts : list value) : list value :=
  filter (fun v => is_str t v = false) ts.

(** Equality of identifiers, as values. *)
Fixpoint value_eqb (v w : value) : bool :=
  match v, w with
  | VNone, VNone => true
  | VBool a, VBool b => Bool.eqb a b
  | VNum a, VNum b => (a =? b)%Z
  | VStr a, VStr b => String.eqb a b
  | VList l, VList l' =>
      (fix all2 (l l' : list value) : bool :=
         match l, l' with
         | [], [] => true
         | x :: xs, y :: ys => value_eqb x y && all2 xs ys
         | _, _ => false
         end) l l'
  | VDict kv, VDict kv' =>
      (fix all2 (l l' : list (string * value)) : bool :=
         match l, l' with
         | [], [] => true
         | (k, x) :: xs, (k', y) :: ys => String.eqb k k' && value_eqb x y && all2 xs ys
         | _, _ => false
         end) kv kv'
  | _, _ => false
  end.


(** The identifier is listed in the queue. *)
Definition id_in (i : value) (queue : list value) : bool := existsb (value_eqb i) queue.

(** A tag set after the four kinds of call, in the order [main] submits
    them: add the cellular tag, add the wifi tag, delete the cellular tag,
    delete the wifi tag. *)
Definition retag (a : args) (add_cell add_wifi del_cell del_wifi : bool)
    (ts : list value) : list value :=
  let ts1 := if add_cell then add_tag (cellular_tag a) ts else ts in
  let ts2 := if add_wifi then add_tag (wifi_tag a) ts1 else ts1 in
  let ts3 := if del_cell then delete_tag (cellular_tag a) ts2 else ts2 in
  if del_wifi then delete_tag (wifi_tag a) ts3 else ts3.

(** A snapshot after calls of the four kinds, as far as they list its
    identifier.  Every other field is kept, and a record that no call
    lists is left as it is. *)
Definition apply_calls (a : args) (add_cell add_wifi del_cell del_wifi : bool)
    (d : device) : device :=
  if add_cell || add_wifi || del_cell || del_wifi then
    match current_tags d with
    | Ok ts => <["tags" := VList (retag a add_cell add_wifi del_cell del_wifi ts)]> d
    | Raise _ => d
    end
  else d.

(** A snapshot after the calls of the plan [q] are carried out: the
    service changes the tags of every record whose identifier a queue
    lists, and of no other. *)
Definition apply_plan (a : args) (q : queues) (d : device) : device :=
  let i := get d "id" in
  apply_calls a (id_in i (tag_cellular q)) (id_in i (tag_wifi q))
    (id_in i (untag_cellular q)) (id_in i (untag_wifi q)) d.

(** ** The classification as the specification words it *)

(** A field is present when it is neither null nor empty. *)
Definition spec_present (v : value) : bool := negb (is_none v) && truthy v.

Definition spec_has_cell (d : device) : bool := existsb spec_present (fields d).

(** ** The steps of a run *)

(** Sending a list of calls one after the other, up to and including the
    first one the service rejects. *)
Fixpoint issue_until_rejected (dashboard : Dashboard) (ms : list mutation)
    : result unit * list mutation :=
  match ms with
  | [] => (Ok tt, [])
  | m :: rest =>
      match modifyNetworkSmDevicesTags dashboard m with
      | Ok _ => let (r, sent) := issue_until_rejected dashboard rest in (r, m :: sent)
      | Raise e => (Raise e, [m])
      end
  end.

(** A step of the tail of [main]: a line written or a call sent. *)
Inductive step : Type :=
  | Say (line : log_line)
  | Send (m : mutation).

Definition do_step (logger : Logger) (dashboard : Dashboard) (s : step) : result unit :=
  match s with
  | Say line => logger line
  | Send m => modifyNetworkSmDevicesTags dashboard m
  end.

Definition sent_by (s : step) : list mutation :=
  match s with
  | Say _ => []
  | Send m => [m]
  end.

(** Taking steps one after the other, up to and including the first that
    raises; the calls sent on the way are kept. *)
Fixpoint perform (logger : Logger) (dashboard : Dashboard) (steps : list step)
    : result unit * list mutation :=
  match steps with
  | [] => (Ok tt, [])
  | s :: rest =>
      match do_step logger dashboard s with
      | Ok _ =>
          let (r, sent) := perform logger dashboard rest in (r, sent_by s ++ sent)
      | Raise e => (Raise e, sent_by s)
      end
  end.

(** The computation [c] takes the steps [steps], up to the first that
    raises, and passes the exception on. *)
Definition performs (logger : Logger) (dashboard : Dashboard) (c : sm unit)
    (steps : list step) : Prop :=
  ∀ log, c log = (fst (perform logger dashboard steps),
                  log ++ snd (perform logger dashboard steps)).

(** A queue that is announced and sent only under its guard. *)
Definition guarded (b : bool) (line : log_line) (calls : list mutation) : list step :=
  if b then Say line :: map Send calls else [].

(** The steps of the tail of [main] for the four queues. *)
Definition submit_steps (network_id : string) (a : args) (q : queues) : list step :=
  guarded (0 <? length (tag_cellular q))
    (InfoTagging (length (tag_cellular q)) (cellular_tag a))
    (batch_calls network_id (tag_cellular q) (cellular_tag a) "add") ++
  guarded (0 <? length (tag_wifi q))
    (InfoTagging (length (tag_wifi q)) (wifi_tag a))
    (batch_calls network_id (tag_wifi q) (wifi_tag a) "add") ++
  (if remove_wrong a then
     guarded (truthy (VList (untag_cellular q)))
       (InfoRemovingFromWifiOnly (cellular_tag a) (length (untag_cellular q)))
       (batch_calls network_id (untag_cellular q) (cellular_tag a) "delete") ++
     guarded (truthy (VList (untag_wifi q)))
       (InfoRemovingFromCellular (wifi_tag a) (length (untag_wifi q)))
       (batch_calls network_id (untag_wifi q) (wifi_tag a) "delete")
   else []).

(** The calls the tail of [main] has to make for the four queues. *)
Definition submit_calls (network_id : string) (a : args) (q : queues) : list mutation :=
  batch_calls network_id (tag_cellular q) (cellular_tag a) "add" ++
  batch_calls network_id (tag_wifi q) (wifi_tag a) "add" ++
  (if remove_wrong a then
     batch_calls network_id (untag_cellular q) (cellular_tag a) "delete" ++
     batch_calls network_id (untag_wifi q) (wifi_tag a) "delete"
   else []).

(** A call that belongs to the plan [q] for network [network_id]: between
    1 and 20 identifiers of one queue, with the tag and action of that
    queue. *)
Definition planned_call (network_id : string) (a : args) (q : queues)
    (m : mutation) : Prop :=
  networkId m = network_id ∧
  0 < length (ids m) ≤ 20 ∧
  ((updateAction m = "add" ∧ tags m = [cellular_tag a] ∧ ids m ⊆ tag_cellular q) ∨
   (updateAction m = "add" ∧ tags m = [wifi_tag a] ∧ ids m ⊆ tag_wifi q) ∨
   (updateAction m = "delete" ∧ tags m = [cellular_tag a] ∧ ids m ⊆ untag_cellular q) ∨
   (updateAction m = "delete" ∧ tags m = [wifi_tag a] ∧ ids m ⊆ untag_wifi q)).

(** ** [main] *)

(** The parsed command line: the two required names and the tagging
    options. *)
Record namespace : Type := {
  ns_org_name : string;
  ns_network_name : string;
  ns_args : args
}.

(** The client [meraki.DashboardAPI(api_key, ...)] returns: the calls
    modelled above and the device listing of a network, which returns
    the records or raises. *)
Record Session : Type := {
  api : Dashboard;
  getNetworkSmDevices : string → result (list device)
}.

(** How [main] ends: it returns, it raises [SystemExit], or another
    exception escapes. *)
Inductive exit : Type :=
  | Completed
  | SystemExit (msg : string)
  | Uncaught (e : exn).

Definition missing_key_message : string :=
  "Set the MERAKI_DASHBOARD_API_KEY in a .env file or as an environment variable".

Definition unresolved_message : string := "Failed to resolve network ID".

(** The body of the [try]: the resolution and the line that reports it. *)
Definition resolve_and_report (logger : Logger) (lower : string → string)
    (dashboard : Dashboard) (ns : namespace) : result string :=
  network_id ← resolve_network_id lower dashboard (ns_network_name ns) (ns_org_name ns);
  _ ← logger (InfoResolved (ns_network_name ns) network_id);
  Ok network_id.

(** Lines 102-104: the key is unset or empty. *)
Definition exit_without_key (logger : Logger) : exit * list mutation :=
  match logger ErrorApiKeyMissing with
  | Raise e => (Uncaught e, [])
  | Ok _ => (SystemExit missing_key_message, [])
  end.

(** Lines 106-193: the run with a key. *)
Definition main_with_key (logger : Logger) (lower : string → string) (key : string)
    (connect : string → result Session) (ns : namespace) : exit * list mutation :=
  match connect key with
  | Raise e => (Uncaught e, [])
  | Ok dashboard =>
      match resolve_and_report logger lower (api dashboard) ns with
      | Raise e =>
          match logger (ErrorException e) with
          | Raise e' => (Uncaught e', [])
          | Ok _ => (SystemExit unresolved_message, [])
          end
      | Ok network_id =>
          match getNetworkSmDevices dashboard network_id with
          | Raise e => (Uncaught e, [])
          | Ok devices =>
              match logger (InfoTotal (length devices)) with
              | Raise e => (Uncaught e, [])
              | Ok _ =>
                  match plan logger (ns_args ns) devices with
                  | Raise e => (Uncaught e, [])
                  | Ok q =>
                      match run (submit logger (api dashboard) network_id (ns_args ns) q) with
                      | (Raise e, calls) => (Uncaught e, calls)
                      | (Ok _, calls) =>
                          match logger InfoComplete with
                          | Raise e => (Uncaught e, calls)
                          | Ok _ => (Completed, calls)
                          end
                      end
                  end
              end
          end
      end
  end.

(** [main] after [parse_args]: [api_key] is what [os.getenv] returns,
    [connect] builds the client or raises.  The result pairs the way the
    run ends with the mutation calls it issued. *)
Definition main (logger : Logger) (lower : string → string) (api_key : option string)
    (connect : string → result Session) (ns : namespace) : exit * list mutation :=
  match api_key with
  | Some key =>
      if truthy (VStr key) then main_with_key logger lower key connect ns
      else exit_without_key logger
  | None => exit_without_key logger
  end.

(** ** Scenarios *)

Definition D1 : device :=
  {[ "id" := VStr "D1"; "imei" := VStr "123"; "tags" := VList [VStr "Curbside_iPad"] ]}.

Definition D2 : device :=
  {[ "id" := VStr "D2"; "imei" := VNone; "iccid" := VNone; "simCarrierNetwork" := VNone;
     "phoneNumber" := VNone; "tags" := VList [VStr "Store_Ipad"] ]}.

Definition D3 : device :=
  {[ "id" := VStr "D3"; "imei" := VStr "999"; "tags" := VList [VStr "Store_Ipad"] ]}.

(** A snapshot whose only evidence is an empty IMEI string. *)
Definition empty_imei : device := {[ "id" := VStr "D0"; "imei" := VStr "" ]}.


(** A record without an ["id"], and one whose ["tags"] is null. *)
Definition no_id : device := {[ "imei" := VStr "555"; "tags" := VNum 7 ]}.
Definition null_tags : device := {[ "id" := VStr "D4"; "tags" := VNone ]}.

(** The same two kinds of record, named with a closing markup tag. *)
Definition no_id_store : device :=
  {[ "name" := VStr "iPad [/store]"; "imei" := VStr "1" ]}.
Definition null_tags_store : device :=
  {[ "id" := VStr "D4"; "name" := VStr "iPad [/store]"; "tags" := VNone ]}.

(** The handler on the lines of these scenarios: it writes them, except
    that showing a record named [iPad [/store]] raises, since [[/store]]
    closes a markup tag that was never opened. *)
Definition markup_handler : Logger := fun line =>
  match line with
  | InfoProcessing d =>
      if is_str "iPad [/store]" (get d "name") then Raise MarkupError else Ok tt
  | _ => Ok tt
  end.


(** A service that accepts every mutation, and one that rejects all. *)
Definition accepting : Dashboard :=
  {| getOrganizations := [];
     getOrganizationNetworks := fun _ _ => [];
     modifyNetworkSmDevicesTags := fun _ => Ok tt |}.

Definition rejecting : Dashboard :=
  {| getOrganizations := [];
     getOrganizationNetworks := fun _ _ => [];
     modifyNetworkSmDevicesTags := fun _ => Raise RemoteError |}.

(** A directory with two organizations of the same name up to case. *)
Definition directory : Dashboard :=
  {| getOrganizations :=
       [ {| org_id := "1"; org_name := "Globex" |};
         {| org_id := "2"; org_name := "Acme Retail" |};
         {| org_id := "3"; org_name := "ACME RETAIL" |} ];
     getOrganizationNetworks := fun org product_types =>
       if String.eqb org "2" then
         [ {| net_id := "N_20"; net_name := "Warehouse" |};
           {| net_id := "N_21"; net_name := "Store iPads" |} ]
       else if String.eqb org "3" then
         [ {| net_id := "N_30"; net_name := "Kiosks" |} ]
       else [];
     modifyNetworkSmDevicesTags := fun _ => Ok tt |}.

(** Scenario D: forty-five identifiers. *)
Definition forty_five : list value := map (fun n => VNum (Z.of_nat n)) (seq 1 45).

(** A service that rejects the batch that starts with identifier 21. *)
Definition rejects_from_21 : Dashboard :=
  {| getOrganizations := [];
     getOrganizationNetworks := fun _ _ => [];
     modifyNetworkSmDevicesTags := fun m =>
       match ids m with
       | VNum 21 :: _ => Raise RemoteError
       | _ => Ok tt
       end |}.

(** The queues of the three scenario devices under [--remove-wrong]. *)
Definition fleet_queues : queues :=
  {| tag_cellular := [VStr "D1"]; tag_wifi := [VStr "D2"];
     untag_cellular := [VStr "D2"]; untag_wifi := [VStr "D1"] |}.

(** The queues of [D1], [null_tags] and [D2], in this order. *)
Definition fleet_and_D4_queues : queues :=
  {| tag_cellular := [VStr "D1"]; tag_wifi := [VStr "D4"; VStr "D2"];
     untag_cellular := [VStr "D2"]; untag_wifi := [VStr "D1"] |}.

(** A service that rejects every call about the default wifi tag. *)
Definition rejects_wifi_tag : Dashboard :=
  {| getOrganizations := [];
     getOrganizationNetworks := fun _ _ => [];
     modifyNetworkSmDevicesTags := fun m =>
       match tags m with
       | [t] => if String.eqb t DEFAULT_WIFI_ONLY_TAG then Raise RemoteError else Ok tt
       | _ => Ok tt
       end |}.

(** ** Runs of [main] *)

(** A client over [directory] whose every network lists [devices]. *)
Definition session_with (devices : list device) : Session :=
  {| api := directory; getNetworkSmDevices := fun _ => Ok devices |}.

(** The same, over the service that rejects every mutation. *)
Definition rejecting_session_with (devices : list device) : Session :=
  {| api := {| getOrganizations := getOrganizations directory;
               getOrganizationNetworks := getOrganizationNetworks directory;
               modifyNetworkSmDevicesTags := fun _ => Raise RemoteError |};
     getNetworkSmDevices := fun _ => Ok devices |}.

(** The same, over the service that rejects the calls about the default
    wifi tag. *)
Definition wifi_rejecting_session_with (devices : list device) : Session :=
  {| api := {| getOrganizations := getOrganizations directory;
               getOrganizationNetworks := getOrganizationNetworks directory;
               modifyNetworkSmDevicesTags := modifyNetworkSmDevicesTags rejects_wifi_tag |};
     getNetworkSmDevices := fun _ => Ok devices |}.

Definition store_ipads : namespace :=
  {| ns_org_name := "acme retail"; ns_network_name := "STORE IPADS";
     ns_args := default_args true |}.

(** A processed record whose ["tags"] is a number. *)
Definition numeric_tags : device := {[ "id" := VStr "D5"; "tags" := VNum 7 ]}.

(** * Properties *)

(** ** The scenarios, run *)

Example plan_D1 :
  plan quiet (default_args true) [D1] =
  Ok {| tag_cellular := [VStr "D1"]; tag_wifi := [];
        untag_cellular := []; untag_wifi := [VStr "D1"] |}.
Proof. vm_compute. reflexivity. Qed.

Example plan_D2 :
  plan quiet (default_args true) [D2] =
  Ok {| tag_cellular := []; tag_wifi := [VStr "D2"];
        untag_cellular := [VStr "D2"]; untag_wifi := [] |}.
Proof. vm_compute. reflexivity. Qed.

Example plan_D3 : plan quiet (default_args true) [D3] = Ok no_queues.
Proof. vm_compute. reflexivity. Qed.

Example batches_45 : map length (batches forty_five) = [20; 20; 5].
Proof. vm_compute. reflexivity. Qed.

Example tags_of_a_string :
  current_tags {[ "id" := VStr "D6"; "tags" := VStr "aé" ]} = Ok [VStr "a"; VStr "é"].
Proof. vm_compute. reflexivity. Qed.

(** ** The classifier *)

Lemma is_none_false v : is_none v = false ↔ v ≠ VNone.
Proof. destruct v; simpl; split; congruence. Qed.

Lemma get_not_none (d : device) k :
  get d k ≠ VNone ↔ ∃ v, d !! k = Some v ∧ v ≠ VNone.
Proof.
  unfold get. destruct (d !! k) as [v|]; simpl; split.
  - intros H. exists v. done.
  - intros (w & [= <-] & H). done.
  - done.
  - intros (w & [=] & _).
Qed.

(** C1, as stated, fails: no field of [empty_imei] is present in the
    specification's sense (non-null and non-empty), yet the script
    classifies the device as cellular. *)
Lemma C1_empty_imei_is_cellular :
  spec_has_cell empty_imei = false ∧ has_cell empty_imei = true.
Proof. split; vm_compute; reflexivity. Qed.

(** C1 (amended): the device is cellular exactly when one of IMEI, ICCID,
    carrier network and phone number is not [None] (a missing key reads as
    [None]; an empty string counts as evidence), and Wi-Fi only exactly
    when all four are [None]. *)
Theorem C1_has_cell_iff_some_field_not_none (d : device) :
  (has_cell d = true ↔
     get d "imei" ≠ VNone ∨ get d "iccid" ≠ VNone ∨
     get d "simCarrierNetwork" ≠ VNone ∨ get d "phoneNumber" ≠ VNone) ∧
  (has_cell d = false ↔
     get d "imei" = VNone ∧ get d "iccid" = VNone ∧
     get d "simCarrierNetwork" = VNone ∧ get d "phoneNumber" = VNone).
Proof.
  assert (N : ∀ v, v ≠ VNone ↔ is_none v = false) by (intros v; symmetry; apply is_none_false).
  assert (E : ∀ v, v = VNone ↔ is_none v = true) by (intros []; simpl; split; congruence).
  unfold has_cell, fields; simpl. rewrite !N, !E.
  destruct (is_none (get d "imei")), (is_none (get d "iccid")),
    (is_none (get d "simCarrierNetwork")), (is_none (get d "phoneNumber"));
    simpl; intuition congruence.
Qed.

(** ** The planner: how the loop composes *)

Lemma qapp_nil_r q : qapp q no_queues = q.
Proof. destruct q; unfold qapp; simpl; by rewrite !app_nil_r. Qed.

Lemma qapp_nil_l q : qapp no_queues q = q.
Proof. by destruct q. Qed.

Lemma qapp_assoc p q r : qapp p (qapp q r) = qapp (qapp p q) r.
Proof. unfold qapp; simpl; by rewrite !app_assoc. Qed.

(** A line that raises is one of the lines. *)
Lemma say_all_raise logger lines e :
  say_all logger lines = Raise e → ∃ line, line ∈ lines ∧ logger line = Raise e.
Proof.
  induction lines as [|line rest IH]; simpl; [done|].
  destruct (logger line) as [[]|e'] eqn:Hl; simpl.
  - intros (l & Hin & Hr)%IH. exists l. split; [by right | done].
  - intros [= <-]. exists line. split; [by left | done].
Qed.

Lemma say_all_ok logger lines :
  say_all logger lines = Ok tt ↔ Forall (fun line => logger line = Ok tt) lines.
Proof.
  induction lines as [|line rest IH]; simpl.
  - split; [constructor | done].
  - destruct (logger line) as [[]|e'] eqn:Hl; simpl.
    + rewrite IH. split; [by constructor | by intros [_ ?]%Forall_cons].
    + split; [done | intros [H _]%Forall_cons; congruence].
Qed.

(** One iteration is its log lines, then its decision. *)
Lemma process_device_factor logger a q (d : device) :
  process_device logger a q d =
  (_ ← say_all logger (device_lines a d);
   pd ← device_result a d;
   Ok (qapp q pd)).
Proof.
  unfold process_device, device_lines, device_result, processed, single_plan,
    correct_tag, wrong_tag.
  simpl. destruct (logger (InfoProcessing d)) as [[]|e0]; simpl; [|done].
  destruct (truthy (get d "id")); simpl; [|by rewrite qapp_nil_r].
  destruct (current_tags d) as [ts|e]; simpl; [|done].
  destruct q as [tc tw uc uw], a as [ct wt rw]; simpl.
  unfold qapp, append_tag_cellular, append_tag_wifi, append_untag_cellular,
    append_untag_wifi; simpl.
  destruct (has_cell d), rw, (tag_in ct ts), (tag_in wt ts); simpl;
    repeat match goal with
      | |- context [logger ?line] => destruct (logger line) as [[]|?]; simpl
      end;
    by rewrite ?app_nil_r.
Qed.

(** The queues built so far only ever grow at the end. *)
Lemma process_device_qapp logger a q d :
  process_device logger a q d = qapp q <$> process_device logger a no_queues d.
Proof.
  rewrite !process_device_factor.
  destruct (say_all logger (device_lines a d)) as [[]|e]; simpl; [|done].
  destruct (device_result a d) as [pd|e]; simpl; [|done].
  by rewrite qapp_nil_l.
Qed.

Lemma loop_qapp logger a q devices :
  loop logger a q devices = qapp q <$> loop logger a no_queues devices.
Proof.
  revert q. induction devices as [|d rest IH]; intros q; simpl.
  - by rewrite qapp_nil_r.
  - rewrite (process_device_qapp logger a q d).
    destruct (process_device logger a no_queues d) as [pd|e]; simpl; [|done].
    rewrite (IH (qapp q pd)), (IH pd).
    destruct (loop logger a no_queues rest) as [pr|e]; simpl; [|done].
    by rewrite qapp_assoc.
Qed.

Lemma plan_single logger a d :
  plan logger a [d] = process_device logger a no_queues d.
Proof. unfold plan; simpl. by destruct (process_device logger a no_queues d). Qed.

Lemma plan_cons logger a d rest :
  plan logger a (d :: rest) =
  (pd ← plan logger a [d]; pr ← plan logger a rest; Ok (qapp pd pr)).
Proof.
  rewrite plan_single. unfold plan at 1; simpl.
  destruct (process_device logger a no_queues d) as [pd|e]; simpl; [|done].
  by rewrite loop_qapp.
Qed.

Lemma plan_app logger a l1 l2 :
  plan logger a (l1 ++ l2) =
  (p1 ← plan logger a l1; p2 ← plan logger a l2; Ok (qapp p1 p2)).
Proof.
  induction l1 as [|d l1 IH].
  - simpl. destruct (plan logger a l2) as [p2|e]; simpl; [|done]. by rewrite qapp_nil_l.
  - rewrite <- app_comm_cons, plan_cons, IH, (plan_cons logger a d l1).
    destruct (plan logger a [d]) as [pd|e]; simpl; [|done].
    destruct (plan logger a l1) as [p1|e]; simpl; [|done].
    destruct (plan logger a l2) as [p2|e]; simpl; [|done].
    by rewrite qapp_assoc.
Qed.

(** The plan of one record: its lines were written, and the queues are
    what the record decides. *)
Lemma plan_single_ok logger a (d : device) pd :
  plan logger a [d] = Ok pd ↔
  say_all logger (device_lines a d) = Ok tt ∧ device_result a d = Ok pd.
Proof.
  rewrite plan_single, process_device_factor.
  destruct (say_all logger (device_lines a d)) as [[]|e]; simpl.
  - destruct (device_result a d) as [pd'|e]; simpl.
    + rewrite qapp_nil_l. split; [by intros [= ->] | by intros [_ [= ->]]].
    + split; [done | by intros [_ ?]].
  - split; [done | by intros [? _]].
Qed.

Lemma device_result_ok a (d : device) pd :
  device_result a d = Ok pd →
  pd = device_plan a d ∧
  (processed d = true → current_tags d = Ok (tags_of d)).
Proof.
  unfold device_result, device_plan, tags_of.
  destruct (processed d); [|by intros [= <-]].
  destruct (current_tags d) as [ts|e]; simpl; [|done]. by intros [= <-].
Qed.

Lemma plan_single_device_plan logger a (d : device) pd :
  plan logger a [d] = Ok pd → pd = device_plan a d.
Proof. intros [_ H]%plan_single_ok. by apply device_result_ok in H as [-> _]. Qed.

(** A successful plan splits around any of its devices. *)
Lemma plan_split logger a l1 d l2 p :
  plan logger a (l1 ++ d :: l2) = Ok p →
  ∃ p1 p2, plan logger a l1 = Ok p1 ∧ plan logger a [d] = Ok (device_plan a d) ∧
           plan logger a l2 = Ok p2 ∧ p = qapp p1 (qapp (device_plan a d) p2).
Proof.
  rewrite plan_app, plan_cons.
  destruct (plan logger a l1) as [p1|e]; simpl; [|done].
  destruct (plan logger a [d]) as [pd|e] eqn:Hd; simpl; [|done].
  destruct (plan logger a l2) as [p2|e]; simpl; [|done].
  intros [= <-]. apply plan_single_device_plan in Hd as ->. by exists p1, p2.
Qed.

Lemma plan_cons_ok logger a (d : device) rest p :
  plan logger a (d :: rest) = Ok p →
  ∃ pr, plan logger a rest = Ok pr ∧ plan logger a [d] = Ok (device_plan a d) ∧
        p = qapp (device_plan a d) pr.
Proof.
  intros H. apply (plan_split logger a [] d rest) in H as (p1 & p2 & [= <-] & ? & ? & ->).
  exists p2. by rewrite qapp_nil_l.
Qed.

(** The plan of a fleet without one of its records, when the plan with
    it succeeds. *)
Lemma plan_without logger a l1 d l2 p :
  plan logger a (l1 ++ d :: l2) = Ok p →
  ∃ p1 p2, plan logger a (l1 ++ l2) = Ok (qapp p1 p2) ∧
           p = qapp p1 (qapp (device_plan a d) p2).
Proof.
  intros (p1 & p2 & H1 & _ & H2 & ->)%plan_split.
  exists p1, p2. split; [|done]. by rewrite plan_app, H1, H2.
Qed.

(** The decision of a processed record with a readable tag set. *)
Lemma device_plan_processed a (d : device) ts :
  truthy (get d "id") = true → current_tags d = Ok ts →
  device_plan a d = single_plan a d ts.
Proof. intros Hid Hts. unfold device_plan, processed, tags_of. by rewrite Hid, Hts. Qed.

Lemma device_plan_skipped a (d : device) :
  truthy (get d "id") = false → device_plan a d = no_queues.
Proof. intros Hid. unfold device_plan, processed. by rewrite Hid. Qed.

(** ** The planner: single devices *)

(** C3: a processed device that is cellular and carries the wifi tag but
    not the cellular tag is, with [--remove-wrong], in both the
    add-cellular and the remove-wifi queue of every plan it is part of. *)
Theorem C3_mistagged_cellular_in_both_queues logger a devices (d : device) ts p :
  remove_wrong a = true →
  d ∈ devices →
  truthy (get d "id") = true →
  has_cell d = true →
  current_tags d = Ok ts →
  tag_in (wifi_tag a) ts = true →
  tag_in (cellular_tag a) ts = false →
  plan logger a devices = Ok p →
  get d "id" ∈ tag_cellular p ∧ get d "id" ∈ untag_wifi p.
Proof.
  intros Hrw Hin Hid Hcell Hts Hw Hc Hp.
  apply list_elem_of_split in Hin as (l1 & l2 & ->).
  apply plan_split in Hp as (p1 & p2 & _ & _ & _ & ->).
  rewrite (device_plan_processed a d ts) by done.
  unfold single_plan; simpl. rewrite Hrw, Hcell, Hw, Hc; simpl.
  split; apply elem_of_app; right; apply list_elem_of_here.
Qed.

(** Scenario A: [D1] under the default policy with [--remove-wrong]. *)
Lemma C3_scenario_A :
  ∃ p, plan quiet (default_args true) [D1] = Ok p ∧
       VStr "D1" ∈ tag_cellular p ∧ VStr "D1" ∈ untag_wifi p.
Proof.
  eexists. split; [vm_compute; reflexivity|].
  apply (C3_mistagged_cellular_in_both_queues quiet (default_args true) [D1] D1
           [VStr "Curbside_iPad"]).
  - reflexivity.
  - apply list_elem_of_here.
  - reflexivity.
  - reflexivity.
  - reflexivity.
  - reflexivity.
  - reflexivity.
  - vm_compute. reflexivity.
Defined.

(** C6: a device whose tag set holds the tag of its capability adds
    nothing to either add queue: the add queues of a plan are those of
    the plan without the device; if the tag of the other capability is
    absent too, the whole plan is the plan without the device, with
    [--remove-wrong] or not. *)
Theorem C6_correctly_tagged_is_no_op logger a (d : device) ts l1 l2 p :
  current_tags d = Ok ts →
  tag_in (correct_tag a (has_cell d)) ts = true →
  plan logger a (l1 ++ d :: l2) = Ok p →
  (∃ p', plan logger a (l1 ++ l2) = Ok p' ∧ add_queues p' = add_queues p) ∧
  (tag_in (wrong_tag a (has_cell d)) ts = false → plan logger a (l1 ++ l2) = Ok p).
Proof.
  intros Hts Hc (p1 & p2 & Hp & ->)%plan_without.
  assert (Hd : tag_cellular (device_plan a d) = [] ∧ tag_wifi (device_plan a d) = [] ∧
               (tag_in (wrong_tag a (has_cell d)) ts = false →
                device_plan a d = no_queues)).
  { destruct (truthy (get d "id")) eqn:Hid.
    - rewrite (device_plan_processed a d ts) by done.
      unfold single_plan, correct_tag, wrong_tag in *.
      destruct (has_cell d); simpl in *; rewrite Hc; simpl;
        rewrite ?andb_false_r; repeat split; try done.
      + intros ->. by rewrite ?andb_false_r.
      + intros ->. by rewrite ?andb_false_r.
    - by rewrite device_plan_skipped. }
  destruct Hd as (Hc' & Hw' & Hno). split.
  - exists (qapp p1 p2). split; [done|].
    unfold add_queues; simpl. by rewrite Hc', Hw'.
  - intros Hw. by rewrite (Hno Hw), qapp_nil_l.
Qed.

(** Scenario C: [D3] in the middle of a fleet leaves the plan as it is. *)
Lemma C6_scenario_C :
  (∃ p', plan quiet (default_args true) ([D1] ++ [D2]) = Ok p' ∧
         add_queues p' = add_queues fleet_queues) ∧
  (tag_in (wrong_tag (default_args true) (has_cell D3)) [VStr "Store_Ipad"] = false →
   plan quiet (default_args true) ([D1] ++ [D2]) = Ok fleet_queues).
Proof.
  apply (C6_correctly_tagged_is_no_op quiet (default_args true) D3 [VStr "Store_Ipad"]
           [D1] [D2] fleet_queues).
  - reflexivity.
  - reflexivity.
  - vm_compute. reflexivity.
Defined.

(** C8 (code bug): the record is written to the log (line 128) before it
    is tested for an identifier (lines 131-133).  The loop over a fleet
    with a record without identifier is that log call followed by the
    loop over the fleet without the record: the record is skipped, as the
    comment at line 130 says, only when the log call returns; when it
    raises, the loop ends with the exception and the records after it are
    never processed. *)
Theorem C8_log_call_precedes_the_skip logger a (d : device) l1 l2 p1 :
  truthy (get d "id") = false →
  plan logger a l1 = Ok p1 →
  plan logger a (l1 ++ d :: l2) =
  (_ ← logger (InfoProcessing d); plan logger a (l1 ++ l2)).
Proof.
  intros Hid H1. rewrite !plan_app, H1, plan_cons, plan_single, process_device_factor.
  unfold device_lines, device_result, processed. rewrite Hid. simpl.
  destruct (logger (InfoProcessing d)) as [[]|e]; simpl; [|done].
  destruct (plan logger a l2) as [p2|e]; simpl; [|done].
  by rewrite qapp_nil_l.
Qed.

(** A record without identifier named [iPad [/store]], followed by [D1]. *)
Lemma C8_markup_in_a_record_without_id :
  plan markup_handler (default_args true) ([] ++ no_id_store :: [D1]) = Raise MarkupError.
Proof.
  rewrite (C8_log_call_precedes_the_skip markup_handler (default_args true) no_id_store
             [] [D1] no_queues); reflexivity.
Defined.

Lemma has_cell_insert_tags (d : device) v : has_cell (<["tags" := v]> d) = has_cell d.
Proof. unfold has_cell, fields, get. by rewrite !lookup_insert_ne. Qed.

Lemma get_id_insert_tags (d : device) v : get (<["tags" := v]> d) "id" = get d "id".
Proof. unfold get. by rewrite lookup_insert_ne. Qed.

Lemma get_tags_insert_tags (d : device) v : get (<["tags" := v]> d) "tags" = v.
Proof. unfold get. by rewrite lookup_insert_eq. Qed.

(** C10 (code bug): a processed record whose ["tags"] is missing or
    [None] is written to the log (line 128) before its tags are read.
    The loop over a fleet with such a record is that log call, then the
    line that announces the add, then the rest of the fleet: only when
    both calls return is the record treated as one with an empty tag set,
    its identifier queued once, for the add of the tag of its capability,
    and for no removal; when the first call raises, the loop ends with
    the exception and the record is queued nowhere. *)
Theorem C10_log_call_precedes_the_tags logger a (d : device) l1 l2 p1 :
  get d "tags" = VNone →
  truthy (get d "id") = true →
  plan logger a l1 = Ok p1 →
  plan logger a (l1 ++ d :: l2) =
  (_ ← logger (InfoProcessing d);
   _ ← logger (if has_cell d then InfoMissingCellular (get d "id") [] (cellular_tag a)
               else InfoMissingWifi (get d "id") [] (wifi_tag a));
   p2 ← plan logger a l2;
   Ok {| tag_cellular :=
           tag_cellular p1 ++ (if has_cell d then [get d "id"] else []) ++ tag_cellular p2;
         tag_wifi :=
           tag_wifi p1 ++ (if has_cell d then [] else [get d "id"]) ++ tag_wifi p2;
         untag_cellular := untag_cellular p1 ++ untag_cellular p2;
         untag_wifi := untag_wifi p1 ++ untag_wifi p2 |}).
Proof.
  intros Htags Hid H1. rewrite plan_app, H1, plan_cons, plan_single, process_device_factor.
  unfold device_lines, device_result, processed, current_tags. rewrite Hid, Htags. simpl.
  destruct (logger (InfoProcessing d)) as [[]|e]; simpl; [|done].
  unfold single_plan, correct_tag, wrong_tag. simpl. rewrite !andb_false_r.
  destruct (has_cell d); simpl;
    (destruct (logger _) as [[]|e]; simpl; [|done]);
    by destruct (plan logger a l2) as [p2|e].
Qed.

(** A record with null tags named [iPad [/store]], after [D1]. *)
Lemma C10_markup_in_a_record_with_null_tags :
  plan markup_handler (default_args true) ([D1] ++ null_tags_store :: []) =
  Raise MarkupError.
Proof.
  rewrite (C10_log_call_precedes_the_tags markup_handler (default_args true)
             null_tags_store [D1] []
             {| tag_cellular := [VStr "D1"]; tag_wifi := [];
                untag_cellular := []; untag_wifi := [VStr "D1"] |}).
  - reflexivity.
  - reflexivity.
  - reflexivity.
  - vm_compute. reflexivity.
Defined.

(** ** The planner: the queues of one plan *)

Lemma queued_qapp i p q : queued i (qapp p q) ↔ queued i p ∨ queued i q.
Proof. unfold queued, qapp; simpl. rewrite !elem_of_app. tauto. Qed.

(** What one device contributes: only its own identifier, to at most one
    add queue and at most one remove queue. *)
Lemma device_plan_shape a (d : device) :
  (∀ i, queued i (device_plan a d) → i = get d "id" ∧ truthy i = true) ∧
  (∀ i, ¬ (i ∈ tag_cellular (device_plan a d) ∧ i ∈ tag_wifi (device_plan a d))) ∧
  (∀ i, ¬ (i ∈ untag_cellular (device_plan a d) ∧ i ∈ untag_wifi (device_plan a d))).
Proof.
  unfold device_plan, processed. destruct (truthy (get d "id")) eqn:Hid.
  - unfold queued, single_plan; simpl.
    destruct (has_cell d), (remove_wrong a), (tag_in (cellular_tag a) (tags_of d)),
      (tag_in (wifi_tag a) (tags_of d)); simpl;
      (split; [intros i [H|[H|[H|H]]] | split; intros i [H1 H2]]);
      repeat match goal with
        | H : _ ∈ [] |- _ => by apply not_elem_of_nil in H
        | H : _ ∈ [_] |- _ => apply list_elem_of_singleton in H; subst
        end; done.
  - unfold queued; simpl.
    (split; [intros i [H|[H|[H|H]]] | split; intros i [H _]]);
      by apply not_elem_of_nil in H.
Qed.

Lemma processed_ids_cons (d : device) rest :
  processed_ids (d :: rest) =
  if truthy (get d "id") then get d "id" :: processed_ids rest else processed_ids rest.
Proof.
  unfold processed_ids; simpl. rewrite filter_cons.
  destruct (truthy (get d "id")); by case_decide.
Qed.

(** Every queued identifier is the identifier of a processed record. *)
Lemma plan_queued_processed logger a devices p i :
  plan logger a devices = Ok p → queued i p → i ∈ processed_ids devices.
Proof.
  revert p. induction devices as [|d rest IH]; intros p.
  - intros [= <-] [H|[H|[H|H]]]; by apply not_elem_of_nil in H.
  - intros (pr & Hr & _ & ->)%plan_cons_ok.
    rewrite queued_qapp, processed_ids_cons.
    intros [Hq|Hq].
    + apply (device_plan_shape a d) in Hq as [-> ->]. apply list_elem_of_here.
    + specialize (IH pr Hr Hq). destruct (truthy (get d "id")); [by right | done].
Qed.




(** ** Applying a plan and planning again *)




Lemma tag_in_app t l1 l2 : tag_in t (l1 ++ l2) = tag_in t l1 || tag_in t l2.
Proof. unfold tag_in. apply existsb_app. Qed.









(** A tag set that was read is a set of hashable values. *)
Lemma current_tags_hashable (d : device) ts :
  current_tags d = Ok ts → forallb hashable ts = true.
Proof.
  unfold current_tags, py_or.
  destruct (truthy (get d "tags")); [|by intros [= <-]].
  destruct (get d "tags") as [| | |s|l|kv]; simpl; try done.
  - intros [= <-]. by induction (code_points s).
  - destruct (forallb hashable l) eqn:H; [|done]. by intros [= <-].
  - intros [= <-]. by induction kv.
Qed.

(** Writing a list of hashable tags and reading it back. *)
Lemma current_tags_insert (d : device) ts :
  forallb hashable ts = true → current_tags (<["tags" := VList ts]> d) = Ok ts.
Proof.
  intros H. unfold current_tags, py_or. rewrite get_tags_insert_tags; simpl.
  destruct ts; simpl in *; [done|]. by rewrite H.
Qed.

(** The queues of a successful plan, as selections from the input. *)
Lemma ids_where_cons f (d : device) rest :
  ids_where f (d :: rest) =
  (if f d then [get d "id"] else []) ++ ids_where f rest.
Proof. unfold ids_where; simpl. by destruct (f d). Qed.


Lemma device_plan_queues a (d : device) :
  tag_cellular (device_plan a d) = (if needs_cellular_tag a d then [get d "id"] else []) ∧
  tag_wifi (device_plan a d) = (if needs_wifi_tag a d then [get d "id"] else []) ∧
  untag_cellular (device_plan a d) =
    (if has_stray_cellular_tag a d then [get d "id"] else []) ∧
  untag_wifi (device_plan a d) = (if has_stray_wifi_tag a d then [get d "id"] else []).
Proof.
  unfold device_plan, needs_cellular_tag, needs_wifi_tag, has_stray_cellular_tag,
    has_stray_wifi_tag, single_plan.
  destruct (processed d); simpl; [|by rewrite !andb_false_r].
  by rewrite !andb_true_r.
Qed.

Lemma plan_queues_where logger a devices p :
  plan logger a devices = Ok p →
  tag_cellular p = ids_where (needs_cellular_tag a) devices ∧
  tag_wifi p = ids_where (needs_wifi_tag a) devices ∧
  untag_cellular p = ids_where (has_stray_cellular_tag a) devices ∧
  untag_wifi p = ids_where (has_stray_wifi_tag a) devices.
Proof.
  revert p. induction devices as [|d rest IH]; intros p.
  - by intros [= <-].
  - intros (pr & Hr & _ & ->)%plan_cons_ok.
    destruct (IH pr Hr) as (H1 & H2 & H3 & H4).
    destruct (device_plan_queues a d) as (E1 & E2 & E3 & E4).
    rewrite !ids_where_cons. simpl.
    by rewrite E1, E2, E3, E4, H1, H2, H3, H4.
Qed.














Example fleet_replanned_quietly :
  plan quiet (default_args true)
    (map (apply_plan (default_args true) fleet_queues) [D1; D2; D3]) = Ok no_queues.
Proof. vm_compute. reflexivity. Qed.

(** ** The batch executor *)

Lemma ceil_div_step n m : 0 < n → 0 < m → ceil_div n m = S (ceil_div (n - m) m).
Proof.
  intros Hn Hm. unfold ceil_div. destruct (le_lt_dec m n) as [Hle|Hlt].
  - replace (n + (m - 1)) with ((n - m + (m - 1)) + 1 * m) by lia.
    rewrite Nat.div_add by lia. lia.
  - replace (n - m) with 0 by lia. rewrite (Nat.div_small (0 + (m - 1))) by lia.
    symmetry. apply (Nat.div_unique _ _ _ (n - 1)); lia.
Qed.

(** [ceil_div n m] is the least number of groups of [m] that hold [n]. *)
Lemma ceil_div_least n m k : 0 < m → ceil_div n m ≤ k ↔ n ≤ k * m.
Proof.
  intros Hm. unfold ceil_div.
  pose proof (Nat.div_mod_eq (n + (m - 1)) m) as E.
  pose proof (Nat.mod_upper_bound (n + (m - 1)) m ltac:(lia)) as B.
  set (q := (n + (m - 1)) / m) in *. set (r := (n + (m - 1)) mod m) in *.
  split; intros H; nia.
Qed.

Lemma slice_take_drop {A} (l : list A) i n : slice l i (i + n) = take n (drop i l).
Proof. unfold slice. f_equal. lia. Qed.

(** With enough fuel the slices from offset [i] on cover the rest of the
    list, in order, in as few batches as possible. *)
Lemma range_from_slices (l : list value) fuel i :
  length l - i ≤ fuel →
  let bs := map (fun j => slice l j (j + max_batch)) (range_from fuel i (length l) max_batch) in
  concat bs = drop i l ∧
  length bs = ceil_div (length l - i) max_batch ∧
  Forall (fun b => length b ≤ max_batch) bs.
Proof.
  revert i. induction fuel as [|fuel IH]; intros i Hfuel; simpl.
  - rewrite drop_ge by lia. replace (length l - i) with 0 by lia. by repeat split.
  - destruct (Nat.ltb_spec i (length l)) as [Hlt|Hge]; simpl.
    + destruct (IH (i + max_batch)) as (Hcat & Hlen & Hall); [unfold max_batch; lia|].
      rewrite Hcat, Hlen, slice_take_drop. repeat split.
      * by rewrite <- drop_drop, take_drop.
      * rewrite (ceil_div_step (length l - i) max_batch) by (unfold max_batch; lia).
        do 2 f_equal. lia.
      * constructor; [|done]. rewrite length_take. lia.
    + rewrite drop_ge by lia. replace (length l - i) with 0 by lia. by repeat split.
Qed.

Lemma batches_spec (serials : list value) :
  concat (batches serials) = serials ∧
  length (batches serials) = ceil_div (length serials) max_batch ∧
  Forall (fun b => length b ≤ max_batch) (batches serials).
Proof.
  unfold batches, py_range.
  destruct (range_from_slices serials (length serials - 0) 0) as (H1 & H2 & H3); [lia|].
  rewrite Nat.sub_0_r in *. by rewrite drop_0 in H1.
Qed.

(** A loop of calls that are all accepted issues every one of them. *)
Lemma for_each_issue_accepted {A} dashboard (mk : A → mutation) (l : list A) log :
  (∀ m, modifyNetworkSmDevicesTags dashboard m = Ok tt) →
  for_each l (fun x => issue dashboard (mk x)) log = (Ok tt, log ++ map mk l).
Proof.
  intros Hok. revert log. induction l as [|x rest IH]; intros log; simpl.
  - unfold sm_ret. by rewrite app_nil_r.
  - unfold sm_bind, issue. rewrite Hok, IH. by rewrite <- app_assoc.
Qed.

(** Whatever the service answers, the calls issued are the first of the
    batches, in order. *)
Lemma for_each_issue_prefix {A} dashboard (mk : A → mutation) (l : list A) log :
  ∃ calls, snd (for_each l (fun x => issue dashboard (mk x)) log) = log ++ calls ∧
           calls `prefix_of` map mk l.
Proof.
  revert log. induction l as [|x rest IH]; intros log; simpl.
  - exists []. unfold sm_ret; simpl. by rewrite app_nil_r.
  - unfold sm_bind. unfold issue at 1.
    destruct (modifyNetworkSmDevicesTags dashboard (mk x)) as [[]|e]; simpl.
    + destruct (IH (log ++ [mk x])) as (calls & -> & Hpre).
      exists (mk x :: calls). rewrite <- app_assoc. split; [done|].
      by apply prefix_cons.
    + exists [mk x]. split; [done|]. by apply prefix_cons, prefix_nil.
Qed.

Lemma batch_modify_tags_accepted dashboard network_id serials tag action :
  (∀ m, modifyNetworkSmDevicesTags dashboard m = Ok tt) →
  run (batch_modify_tags dashboard network_id serials tag action) =
  (Ok tt, batch_calls network_id serials tag action).
Proof.
  intros Hok. unfold run, batch_modify_tags.
  rewrite (for_each_issue_accepted dashboard
    (fun i => {| networkId := network_id; ids := slice serials i (i + max_batch);
                 tags := [tag]; updateAction := action |})) by done.
  unfold batch_calls, batches. by rewrite map_map.
Qed.

Lemma batch_modify_tags_prefix dashboard network_id serials tag action :
  snd (run (batch_modify_tags dashboard network_id serials tag action))
    `prefix_of` batch_calls network_id serials tag action.
Proof.
  unfold run, batch_modify_tags.
  destruct (for_each_issue_prefix dashboard
    (fun i => {| networkId := network_id; ids := slice serials i (i + max_batch);
                 tags := [tag]; updateAction := action |})
    (py_range 0 (length serials) max_batch) []) as (calls & -> & Hpre).
  unfold batch_calls, batches. by rewrite map_map.
Qed.

(** A rejected call ends the loop: the later batches are never sent. *)
Example rejected_batch_stops :
  run (batch_modify_tags rejecting "N_1" forty_five "Store_Ipad" "add") =
  (Raise RemoteError,
   [{| networkId := "N_1"; ids := take 20 forty_five; tags := ["Store_Ipad"];
       updateAction := "add" |}]).
Proof. vm_compute. reflexivity. Qed.

(** C2: when the service accepts the calls, [batch_modify_tags] on [N]
    identifiers returns after exactly [ceil(N/20)] calls, each for the
    given network, tag and action with at most 20 identifiers, and the
    batches, joined in call order, are the input list. *)
Theorem C2_batches_of_twenty dashboard network_id serials tag action :
  (∀ m, modifyNetworkSmDevicesTags dashboard m = Ok tt) →
  let out := run (batch_modify_tags dashboard network_id serials tag action) in
  fst out = Ok tt ∧
  length (snd out) = ceil_div (length serials) 20 ∧
  Forall (fun m => length (ids m) ≤ 20 ∧ networkId m = network_id ∧
                   tags m = [tag] ∧ updateAction m = action) (snd out) ∧
  concat (map ids (snd out)) = serials.
Proof.
  intros Hok. rewrite batch_modify_tags_accepted by done. simpl.
  destruct (batches_spec serials) as (Hcat & Hlen & Hall).
  unfold batch_calls. rewrite length_map, map_map; simpl. rewrite map_id.
  repeat split; try done.
  apply Forall_map. eapply Forall_impl; [exact Hall|]. by intros b Hb.
Qed.

(** Scenario D: forty-five identifiers go out in three calls. *)
Lemma C2_scenario_D :
  let out := run (batch_modify_tags accepting "N_1" forty_five "Store_Ipad" "add") in
  fst out = Ok tt ∧
  length (snd out) = ceil_div (length forty_five) 20 ∧
  Forall (fun m => length (ids m) ≤ 20 ∧ networkId m = "N_1" ∧
                   tags m = ["Store_Ipad"] ∧ updateAction m = "add") (snd out) ∧
  concat (map ids (snd out)) = forty_five.
Proof. apply (C2_batches_of_twenty accepting "N_1" forty_five "Store_Ipad" "add"). reflexivity. Defined.

Example scenario_D_sizes :
  map (fun m => length (ids m))
      (snd (run (batch_modify_tags accepting "N_1" forty_five "Store_Ipad" "add"))) =
  [20; 20; 5].
Proof. vm_compute. reflexivity. Qed.

(** C7: on an empty list [batch_modify_tags] returns without a single
    call, whatever the service, network, tag and action. *)
Theorem C7_empty_list_no_calls dashboard network_id tag action :
  run (batch_modify_tags dashboard network_id [] tag action) = (Ok tt, []).
Proof. reflexivity. Qed.

(** ** The resolver *)

Lemma find_first_match {A} (f : A → bool) (P : A → Prop) (l : list A) x :
  (∀ y, f y = true ↔ P y) →
  find f l = Some x ↔ first_match P l x.
Proof.
  intros HfP. split.
  - induction l as [|y l IH]; simpl; [done|].
    destruct (f y) eqn:Hy.
    + intros [= ->]. exists [], l. repeat split; [by apply HfP | constructor].
    + intros (l1 & l2 & -> & Hx & Hl1)%IH.
      exists (y :: l1), l2. repeat split; [done|].
      constructor; [|done]. rewrite <- HfP. congruence.
  - intros (l1 & l2 & -> & Hx & Hl1).
    induction Hl1 as [|y l1 Hy _ IH]; simpl.
    + apply HfP in Hx. by rewrite Hx.
    + destruct (f y) eqn:Hfy; [|done]. by apply HfP in Hfy.
Qed.

Lemma find_no_match {A} (f : A → bool) (P : A → Prop) (l : list A) :
  (∀ y, f y = true ↔ P y) →
  find f l = None ↔ Forall (fun y => ¬ P y) l.
Proof.
  intros HfP. induction l as [|y l IH]; simpl.
  - split; [constructor | done].
  - destruct (f y) eqn:Hy.
    + split; [done|]. intros [Hn _]%Forall_cons. by apply HfP in Hy.
    + rewrite IH. split.
      * intros H. constructor; [|done]. rewrite <- HfP. congruence.
      * by intros [_ H]%Forall_cons.
Qed.

Lemma same_name_eq lower x y : same_name lower x y = true ↔ lower x = lower y.
Proof. unfold same_name. apply String.eqb_eq. Qed.

(** C9: [resolve_network_id] raises its not-found error exactly when no
    organization has the requested name up to case, or the first such
    organization has, among its [systemsManager] networks, none with the
    requested name up to case; otherwise it returns the id of the first
    such network, and it has no other outcome. *)
Theorem C9_resolve_network_id lower dashboard network_name organization_name :
  let org_matches o := lower (org_name o) = lower organization_name in
  let net_matches n := lower (net_name n) = lower network_name in
  let orgs := getOrganizations dashboard in
  let networks org := getOrganizationNetworks dashboard (org_id org) ["systemsManager"] in
  let outcome := resolve_network_id lower dashboard network_name organization_name in
  ((∃ msg, outcome = Raise (ValueError msg)) ↔
     Forall (fun o => ¬ org_matches o) orgs ∨
     ∃ org, first_match org_matches orgs org ∧
            Forall (fun n => ¬ net_matches n) (networks org)) ∧
  (∀ i, outcome = Ok i ↔
     ∃ org net, first_match org_matches orgs org ∧
                first_match net_matches (networks org) net ∧ i = net_id net) ∧
  ((∃ i, outcome = Ok i) ∨ (∃ msg, outcome = Raise (ValueError msg))).
Proof.
  intros org_matches net_matches orgs networks outcome.
  assert (Ho : ∀ o, same_name lower (org_name o) organization_name = true ↔ org_matches o)
    by (intros o; apply same_name_eq).
  assert (Hn : ∀ n, same_name lower (net_name n) network_name = true ↔ net_matches n)
    by (intros n; apply same_name_eq).
  pose proof (fun x => find_first_match _ _ orgs x Ho) as Hfo.
  pose proof (find_no_match _ _ orgs Ho) as Hno.
  subst outcome. unfold resolve_network_id. fold orgs.
  destruct (find _ orgs) as [org|] eqn:Forg.
  - fold (networks org).
    pose proof (fun x => find_first_match _ _ (networks org) x Hn) as Hfn.
    pose proof (find_no_match _ _ (networks org) Hn) as Hnn.
    assert (Huniq : ∀ org', first_match org_matches orgs org' → org' = org).
    { intros org' H'. apply Hfo in H'. congruence. }
    assert (Hsome : ¬ Forall (fun o => ¬ org_matches o) orgs).
    { intros H. apply Hno in H. congruence. }
    assert (Horg : first_match org_matches orgs org) by (by apply Hfo).
    destruct (find _ (networks org)) as [net|] eqn:Fnet.
    + split; [|split].
      * split; [by intros [msg [=]]|].
        intros [H|(org' & H' & Hnone)]; [done|].
        apply Huniq in H' as ->. apply Hnn in Hnone. congruence.
      * intros i. split.
        -- intros [= <-]. exists org, net. by rewrite <- Hfn.
        -- intros (org' & net' & H' & Hnet' & ->). apply Huniq in H' as ->.
           apply Hfn in Hnet'. congruence.
      * left. eauto.
    + split; [|split].
      * split; [|eauto]. intros _. right. exists org. split; [done|]. by apply Hnn.
      * intros i. split; [done|].
        intros (org' & net' & H' & Hnet' & ->). apply Huniq in H' as ->.
        apply Hfn in Hnet'. congruence.
      * right. eauto.
  - split; [|split].
    + split; [|eauto]. intros _. left. by apply Hno.
    + intros i. split; [done|].
      intros (org' & net' & H' & _). apply Hfo in H'. congruence.
    + right. eauto.
Qed.

(** The first of the two same-named organizations is searched, and only
    that one. *)
Example resolve_store_ipads :
  resolve_network_id str_lower directory "STORE IPADS" "acme retail" = Ok "N_21".
Proof. vm_compute. reflexivity. Qed.

Example resolve_kiosks_not_found :
  resolve_network_id str_lower directory "Kiosks" "acme retail" =
  Raise (ValueError "Network 'Kiosks' not found in organization 'acme retail'").
Proof. vm_compute. reflexivity. Qed.

Example resolve_unknown_organization :
  resolve_network_id str_lower directory "Kiosks" "Initech" =
  Raise (ValueError "Organization 'Initech' not found").
Proof. vm_compute. reflexivity. Qed.

(** * Further properties of the batch executor *)

Lemma ceil_div_0 m : 0 < m → ceil_div 0 m = 0.
Proof. intros Hm. unfold ceil_div. apply Nat.div_small. lia. Qed.

(** With fuel for every index, [range_from] lists [i], [i + step], ... *)
Lemma range_from_seq fuel i stop step :
  0 < step → stop - i ≤ fuel →
  range_from fuel i stop step =
  map (fun k => i + k * step) (seq 0 (ceil_div (stop - i) step)).
Proof.
  intros Hstep. revert i. induction fuel as [|fuel IH]; intros i Hfuel; simpl.
  - replace (stop - i) with 0 by lia. by rewrite ceil_div_0.
  - destruct (Nat.ltb_spec i stop) as [Hlt|Hge].
    + rewrite (ceil_div_step (stop - i) step) by lia. simpl.
      rewrite IH by lia. rewrite <- seq_shift, map_map. f_equal; [lia|].
      replace (stop - (i + step)) with (stop - i - step) by lia.
      apply map_ext. intros k. lia.
    + replace (stop - i) with 0 by lia. by rewrite ceil_div_0.
Qed.

Lemma batches_by_index (serials : list value) :
  batches serials =
  map (fun k => take max_batch (drop (k * max_batch) serials))
      (seq 0 (ceil_div (length serials) max_batch)).
Proof.
  unfold batches, py_range.
  rewrite range_from_seq by (unfold max_batch; lia).
  rewrite map_map, Nat.sub_0_r. apply map_ext. intros k.
  by rewrite slice_take_drop.
Qed.

Lemma lookup_batches (serials : list value) k b :
  batches serials !! k = Some b ↔
  k < ceil_div (length serials) max_batch ∧
  b = take max_batch (drop (k * max_batch) serials).
Proof.
  rewrite batches_by_index.
  change (map ?f ?l) with (f <$> l). rewrite list_lookup_fmap_Some.
  split.
  - intros (j & -> & [-> Hk]%lookup_seq). done.
  - intros [Hk ->]. exists k. split; [done|]. by apply lookup_seq.
Qed.

Lemma batches_nonempty (serials : list value) :
  Forall (fun b => 0 < length b) (batches serials).
Proof.
  apply Forall_lookup. intros k b [Hk ->]%lookup_batches.
  assert (¬ length serials ≤ k * max_batch) as Hlt.
  { intros H. apply (ceil_div_least _ max_batch) in H; [lia | unfold max_batch; lia]. }
  rewrite length_take, length_drop. unfold max_batch in *. lia.
Qed.

(** The batches are the consecutive chunks [serials[20k : 20k + 20]]:
    none is empty, and all but the last hold exactly 20 identifiers. *)
Theorem batches_are_consecutive_chunks (serials : list value) :
  batches serials =
    map (fun k => take 20 (drop (k * 20) serials))
        (seq 0 (ceil_div (length serials) 20)) ∧
  Forall (fun b => 0 < length b) (batches serials) ∧
  (∀ k b, batches serials !! k = Some b → S k < length (batches serials) →
          length b = 20).
Proof.
  split; [apply batches_by_index|]. split.
  - apply batches_nonempty.
  - intros k b [Hk ->]%lookup_batches Hnext.
    destruct (batches_spec serials) as (_ & Hlen & _). rewrite Hlen in Hnext.
    assert (¬ length serials ≤ S k * max_batch) as Hlt.
    { intros H. apply (ceil_div_least _ max_batch) in H; [lia | unfold max_batch; lia]. }
    rewrite length_take, length_drop. unfold max_batch in *. lia.
Qed.

(** ** Rejected calls *)

Lemma issue_until_rejected_app dashboard l1 l2 :
  issue_until_rejected dashboard (l1 ++ l2) =
  match issue_until_rejected dashboard l1 with
  | (Ok _, sent1) =>
      let (r, sent2) := issue_until_rejected dashboard l2 in (r, sent1 ++ sent2)
  | (Raise e, sent1) => (Raise e, sent1)
  end.
Proof.
  induction l1 as [|m l1 IH]; simpl.
  - by destruct (issue_until_rejected dashboard l2).
  - destruct (modifyNetworkSmDevicesTags dashboard m) as [[]|e]; [|done].
    rewrite IH. destruct (issue_until_rejected dashboard l1) as [[[]|e] sent1]; [|done].
    by destruct (issue_until_rejected dashboard l2).
Qed.

Lemma issue_all_accepted dashboard ms :
  Forall (fun m => modifyNetworkSmDevicesTags dashboard m = Ok tt) ms →
  issue_until_rejected dashboard ms = (Ok tt, ms).
Proof. induction 1 as [|m ms Hm _ IH]; simpl; [done|]. by rewrite Hm, IH. Qed.

Lemma issue_first_rejected dashboard l1 m l2 e :
  Forall (fun m => modifyNetworkSmDevicesTags dashboard m = Ok tt) l1 →
  modifyNetworkSmDevicesTags dashboard m = Raise e →
  issue_until_rejected dashboard (l1 ++ m :: l2) = (Raise e, l1 ++ [m]).
Proof.
  intros Hl1 Hm. rewrite issue_until_rejected_app, (issue_all_accepted _ l1 Hl1).
  simpl. by rewrite Hm.
Qed.

Lemma issue_until_rejected_prefix dashboard ms :
  snd (issue_until_rejected dashboard ms) `prefix_of` ms.
Proof.
  induction ms as [|m ms IH]; simpl; [done|].
  destruct (modifyNetworkSmDevicesTags dashboard m) as [[]|e]; simpl.
  - destruct (issue_until_rejected dashboard ms); simpl in *. by apply prefix_cons.
  - apply prefix_cons, prefix_nil.
Qed.

Lemma issue_ok_all_sent dashboard ms sent :
  issue_until_rejected dashboard ms = (Ok tt, sent) →
  sent = ms ∧ Forall (fun m => modifyNetworkSmDevicesTags dashboard m = Ok tt) ms.
Proof.
  revert sent. induction ms as [|m ms IH]; intros sent; simpl.
  - by intros [= <-].
  - destruct (modifyNetworkSmDevicesTags dashboard m) as [[]|e] eqn:Hm; [|done].
    destruct (issue_until_rejected dashboard ms) as [r sent'].
    intros [= -> <-]. destruct (IH sent' eq_refl) as [-> Hall]. by split; [|constructor].
Qed.

(** A loop of calls from any log: the calls sent are appended. *)
Lemma for_each_issue_outcome {A} dashboard (mk : A → mutation) (l : list A) log :
  for_each l (fun x => issue dashboard (mk x)) log =
  (fst (issue_until_rejected dashboard (map mk l)),
   log ++ snd (issue_until_rejected dashboard (map mk l))).
Proof.
  revert log. induction l as [|x rest IH]; intros log; simpl.
  - unfold sm_ret. by rewrite app_nil_r.
  - unfold sm_bind. unfold issue at 1.
    destruct (modifyNetworkSmDevicesTags dashboard (mk x)) as [[]|e]; simpl; [|done].
    rewrite IH. destruct (issue_until_rejected dashboard (map mk rest)); simpl.
    by rewrite <- app_assoc.
Qed.

Lemma batch_modify_tags_outcome dashboard network_id serials tag action log :
  batch_modify_tags dashboard network_id serials tag action log =
  (fst (issue_until_rejected dashboard (batch_calls network_id serials tag action)),
   log ++ snd (issue_until_rejected dashboard (batch_calls network_id serials tag action))).
Proof.
  unfold batch_modify_tags.
  rewrite (for_each_issue_outcome dashboard
    (fun i => {| networkId := network_id; ids := slice serials i (i + max_batch);
                 tags := [tag]; updateAction := action |})).
  unfold batch_calls, batches. by rewrite map_map.
Qed.

(** A rejected batch ends [batch_modify_tags]: the exception is passed
    on, the batches before it stay sent, and none after it is sent. *)
Theorem batch_modify_tags_stops_at_rejection
    dashboard network_id serials tag action l1 m l2 e :
  batch_calls network_id serials tag action = l1 ++ m :: l2 →
  Forall (fun m => modifyNetworkSmDevicesTags dashboard m = Ok tt) l1 →
  modifyNetworkSmDevicesTags dashboard m = Raise e →
  run (batch_modify_tags dashboard network_id serials tag action) =
  (Raise e, l1 ++ [m]).
Proof.
  intros Hcalls Hl1 Hm. unfold run.
  rewrite batch_modify_tags_outcome, Hcalls, (issue_first_rejected _ _ _ _ e) by done.
  done.
Qed.

(** Forty-five identifiers against a service that rejects the second
    batch: the first two batches are sent, the third is not. *)
Lemma batch_modify_tags_second_batch_rejected :
  run (batch_modify_tags rejects_from_21 "N_1" forty_five "Store_Ipad" "add") =
  (Raise RemoteError,
   take 1 (batch_calls "N_1" forty_five "Store_Ipad" "add") ++
   [{| networkId := "N_1"; ids := take 20 (drop 20 forty_five);
       tags := ["Store_Ipad"]; updateAction := "add" |}]).
Proof.
  apply (batch_modify_tags_stops_at_rejection rejects_from_21 "N_1" forty_five
           "Store_Ipad" "add" _ _
           (drop 2 (batch_calls "N_1" forty_five "Store_Ipad" "add"))).
  - reflexivity.
  - repeat constructor.
  - reflexivity.
Defined.

(** * Further properties of the resolver *)

(** Only the lowered names matter: two requests that agree up to case
    resolve to the same network id, or both fail. *)
Theorem resolve_ignores_case lower dashboard n1 n2 o1 o2 :
  lower n1 = lower n2 →
  lower o1 = lower o2 →
  (∀ i, resolve_network_id lower dashboard n1 o1 = Ok i ↔
        resolve_network_id lower dashboard n2 o2 = Ok i) ∧
  ((∃ msg, resolve_network_id lower dashboard n1 o1 = Raise (ValueError msg)) ↔
   (∃ msg, resolve_network_id lower dashboard n2 o2 = Raise (ValueError msg))).
Proof.
  intros Hn Ho. unfold resolve_network_id, same_name. rewrite Hn, Ho.
  destruct (find _ (getOrganizations dashboard)) as [org|].
  - destruct (find _ (getOrganizationNetworks dashboard (org_id org) _)) as [net|].
    + split; [done|]. split; by intros [msg [=]].
    + split; [done|]. split; intros _; eauto.
  - split; [done|]. split; intros _; eauto.
Qed.

Lemma resolve_ignores_case_example :
  (∀ i, resolve_network_id str_lower directory "STORE IPADS" "acme retail" = Ok i ↔
        resolve_network_id str_lower directory "Store iPads" "Acme Retail" = Ok i) ∧
  ((∃ msg, resolve_network_id str_lower directory "STORE IPADS" "acme retail" =
           Raise (ValueError msg)) ↔
   (∃ msg, resolve_network_id str_lower directory "Store iPads" "Acme Retail" =
           Raise (ValueError msg))).
Proof.
  apply (resolve_ignores_case str_lower directory
           "STORE IPADS" "Store iPads" "acme retail" "Acme Retail"); reflexivity.
Defined.

(** * Further properties of the planner *)

(** Each queue lists, in input order, the identifiers of exactly the
    records that meet its condition. *)
Theorem plan_queues_in_input_order logger a devices p :
  plan logger a devices = Ok p →
  tag_cellular p = ids_where (needs_cellular_tag a) devices ∧
  tag_wifi p = ids_where (needs_wifi_tag a) devices ∧
  untag_cellular p = ids_where (has_stray_cellular_tag a) devices ∧
  untag_wifi p = ids_where (has_stray_wifi_tag a) devices.
Proof.
  intros Hp. destruct (plan_queues_where logger a devices p Hp) as (H1 & H2 & H3 & H4).
  by rewrite H1, H2, H3, H4.
Qed.

Lemma plan_fleet_in_input_order :
  ∃ p, plan quiet (default_args true) [D1; D2; D3] = Ok p ∧
       tag_cellular p = ids_where (needs_cellular_tag (default_args true)) [D1; D2; D3] ∧
       tag_wifi p = ids_where (needs_wifi_tag (default_args true)) [D1; D2; D3] ∧
       untag_cellular p = ids_where (has_stray_cellular_tag (default_args true)) [D1; D2; D3] ∧
       untag_wifi p = ids_where (has_stray_wifi_tag (default_args true)) [D1; D2; D3].
Proof.
  eexists. split; [vm_compute; reflexivity|].
  apply (plan_queues_in_input_order quiet (default_args true) [D1; D2; D3]).
  vm_compute. reflexivity.
Defined.

(** Planning two fleets one after the other: the plan of the whole is
    the queue-wise concatenation of the two plans, and an exception in
    the first part is the exception of the whole. *)
Theorem plan_of_concatenation logger a l1 l2 :
  (∀ p, plan logger a (l1 ++ l2) = Ok p ↔
        ∃ p1 p2, plan logger a l1 = Ok p1 ∧ plan logger a l2 = Ok p2 ∧ p = qapp p1 p2) ∧
  (∀ e, plan logger a l1 = Raise e → plan logger a (l1 ++ l2) = Raise e).
Proof.
  rewrite plan_app. split.
  - intros p. split.
    + destruct (plan logger a l1) as [p1|e]; simpl; [|done].
      destruct (plan logger a l2) as [p2|e]; simpl; [|done].
      intros [= <-]. by exists p1, p2.
    + intros (p1 & p2 & -> & -> & ->). done.
  - by intros e ->.
Qed.

(** Without [--remove-wrong] nothing is ever queued for removal. *)
Theorem plan_without_remove_wrong logger a devices p :
  remove_wrong a = false →
  plan logger a devices = Ok p →
  untag_cellular p = [] ∧ untag_wifi p = [].
Proof.
  intros Hrw. revert p. induction devices as [|d rest IH]; intros p.
  - by intros [= <-].
  - intros (pr & Hr & _ & ->)%plan_cons_ok.
    destruct (IH pr Hr) as [H1 H2].
    destruct (device_plan_queues a d) as (_ & _ & E3 & E4).
    simpl. rewrite E3, E4, H1, H2.
    unfold has_stray_cellular_tag, has_stray_wifi_tag. by rewrite Hrw.
Qed.

Lemma plan_without_remove_wrong_fleet :
  ∃ p, plan quiet (default_args false) [D1; D2; D3] = Ok p ∧
       untag_cellular p = [] ∧ untag_wifi p = [].
Proof.
  eexists. split; [vm_compute; reflexivity|].
  apply (plan_without_remove_wrong quiet (default_args false) [D1; D2; D3]).
  - reflexivity.
  - vm_compute. reflexivity.
Defined.

Lemma current_tags_raise (d : device) e :
  current_tags d = Raise e ↔ e = TypeError ∧ unreadable (get d "tags") = true.
Proof.
  unfold current_tags, py_or.
  destruct (get d "tags") as [|[]|n|s|l|kv]; simpl;
    try (split; [done | by intros [_ ?]]).
  - split; [by intros [= <-] | by intros [-> _]].
  - destruct (n =? 0)%Z; simpl; [split; [done | by intros [_ ?]]|].
    split; [by intros [= <-] | by intros [-> _]].
  - destruct (String.eqb s ""); simpl; split; try done; by intros [_ ?].
  - destruct l as [|v l]; simpl; [split; [done | by intros [_ ?]]|].
    destruct (hashable v && forallb hashable l); simpl.
    + split; [done | by intros [_ ?]].
    + split; [by intros [= <-] | by intros [-> _]].
  - destruct kv; simpl; split; try done; by intros [_ ?].
Qed.

Lemma current_tags_readable (d : device) ts :
  current_tags d = Ok ts → unreadable (get d "tags") = false.
Proof.
  intros Hts. destruct (unreadable (get d "tags")) eqn:Hu; [|done].
  assert (current_tags d = Raise TypeError) by (by apply current_tags_raise).
  congruence.
Qed.

(** What one record's iteration can raise: the exception of a log call,
    or a [TypeError] on the unreadable tags of a processed record. *)
Lemma plan_single_raise logger a (d : device) e :
  plan logger a [d] = Raise e →
  (e = TypeError ∧ processed d = true ∧ unreadable (get d "tags") = true) ∨
  ∃ line, logger line = Raise e.
Proof.
  rewrite plan_single, process_device_factor.
  destruct (say_all logger (device_lines a d)) as [[]|e'] eqn:Hsay; simpl.
  - unfold device_result. destruct (processed d); [|done].
    destruct (current_tags d) as [ts|e'] eqn:Hts; simpl; [done|].
    intros [= <-]. apply current_tags_raise in Hts as [-> Hu]. by left.
  - intros [= <-]. apply say_all_raise in Hsay as (line & _ & Hl). right. by exists line.
Qed.

(** The loop completes only if every record that is not skipped has a
    ["tags"] value that [set] can take; what it raises is a [TypeError]
    on such a record, or the exception of a log call. *)
Theorem plan_raises_on_unreadable_tags logger a devices :
  (∀ p, plan logger a devices = Ok p →
        Forall (fun d => processed d = true → unreadable (get d "tags") = false) devices) ∧
  (∀ e, plan logger a devices = Raise e →
        (e = TypeError ∧
         Exists (fun d => processed d = true ∧ unreadable (get d "tags") = true) devices) ∨
        ∃ line, logger line = Raise e).
Proof.
  split.
  - induction devices as [|d rest IH]; intros p; [constructor|].
    intros (pr & Hr & [_ Hd]%plan_single_ok & _)%plan_cons_ok.
    constructor; [|by apply (IH pr)].
    intros Hp. apply device_result_ok in Hd as [_ Hts].
    by apply (current_tags_readable d (tags_of d)), Hts.
  - induction devices as [|d rest IH]; intros e; [done|].
    rewrite plan_cons.
    destruct (plan logger a [d]) as [pd|e1] eqn:Hd; simpl.
    + destruct (plan logger a rest) as [pr|e2]; simpl; [done|].
      intros [= <-]. destruct (IH e2 eq_refl) as [[-> Hex]|Hlog]; [|by right].
      left. split; [done | by apply Exists_cons_tl].
    + intros [= <-]. apply plan_single_raise in Hd as [(-> & Hp & Hu)|Hlog]; [|by right].
      left. split; [done | by apply Exists_cons_hd].
Qed.

(** The mirror image of the mistagged cellular device: a processed
    Wi-Fi-only device that carries the cellular tag and not the wifi tag
    is, with [--remove-wrong], in the add-wifi and the remove-cellular
    queue. *)
Theorem mistagged_wifi_only_in_both_queues logger a devices (d : device) ts p :
  remove_wrong a = true →
  d ∈ devices →
  truthy (get d "id") = true →
  has_cell d = false →
  current_tags d = Ok ts →
  tag_in (cellular_tag a) ts = true →
  tag_in (wifi_tag a) ts = false →
  plan logger a devices = Ok p →
  get d "id" ∈ tag_wifi p ∧ get d "id" ∈ untag_cellular p.
Proof.
  intros Hrw Hin Hid Hcell Hts Hc Hw Hp.
  apply list_elem_of_split in Hin as (l1 & l2 & ->).
  apply plan_split in Hp as (p1 & p2 & _ & _ & _ & ->).
  rewrite (device_plan_processed a d ts) by done.
  unfold single_plan; simpl. rewrite Hrw, Hcell, Hw, Hc; simpl.
  split; apply elem_of_app; right; apply list_elem_of_here.
Qed.

(** Scenario B: [D2] under the default policy with [--remove-wrong]. *)
Lemma mistagged_wifi_only_scenario_B :
  ∃ p, plan quiet (default_args true) [D2] = Ok p ∧
       VStr "D2" ∈ tag_wifi p ∧ VStr "D2" ∈ untag_cellular p.
Proof.
  eexists. split; [vm_compute; reflexivity|].
  apply (mistagged_wifi_only_in_both_queues quiet (default_args true) [D2] D2
           [VStr "Store_Ipad"]); try reflexivity.
  apply list_elem_of_here.
Defined.

(** Whatever is queued is the identifier of an input record, and it is
    truthy: the planner neither invents identifiers nor queues a missing
    one. *)
Theorem queued_ids_come_from_input logger a devices p i :
  plan logger a devices = Ok p →
  queued i p →
  truthy i = true ∧ ∃ d, d ∈ devices ∧ get d "id" = i.
Proof.
  intros Hp Hq. pose proof (plan_queued_processed logger a devices p i Hp Hq) as Hi.
  unfold processed_ids in Hi. apply list_elem_of_filter in Hi as [Ht Hi].
  split; [done|].
  apply list_elem_of_In, in_map_iff in Hi as (d & Hd & Hin).
  exists d. split; [by apply list_elem_of_In | done].
Qed.

Lemma queued_ids_come_from_input_fleet :
  truthy (VStr "D2") = true ∧ ∃ d, d ∈ [D1; D2; D3] ∧ get d "id" = VStr "D2".
Proof.
  apply (queued_ids_come_from_input quiet (default_args true) [D1; D2; D3] fleet_queues).
  - vm_compute. reflexivity.
  - right; left. apply list_elem_of_here.
Defined.

(** When the processed records carry pairwise distinct identifiers, no
    queue holds an identifier twice. *)
Theorem queues_have_no_duplicates logger a devices p :
  NoDup (processed_ids devices) →
  plan logger a devices = Ok p →
  NoDup (tag_cellular p) ∧ NoDup (tag_wifi p) ∧
  NoDup (untag_cellular p) ∧ NoDup (untag_wifi p).
Proof.
  revert p. induction devices as [|d rest IH]; intros p Hnd.
  - intros [= <-]. repeat split; apply NoDup_nil_2.
  - intros (pr & Hr & _ & ->)%plan_cons_ok.
    assert (Hfresh : ∀ i, queued i (device_plan a d) → ¬ queued i pr).
    { intros i Hq Hpr.
      apply (device_plan_shape a d) in Hq as [-> Hid].
      apply (plan_queued_processed logger a rest pr _ Hr) in Hpr.
      rewrite processed_ids_cons, Hid in Hnd. by apply NoDup_cons in Hnd as [Hnot _]. }
    assert (Hnd' : NoDup (processed_ids rest)).
    { rewrite processed_ids_cons in Hnd.
      destruct (truthy (get d "id")); [by apply NoDup_cons in Hnd as [_ ?] | done]. }
    destruct (IH pr Hnd' Hr) as (N1 & N2 & N3 & N4).
    destruct (device_plan_queues a d) as (E1 & E2 & E3 & E4).
    unfold queued in Hfresh. simpl.
    repeat split.
    + revert Hfresh. rewrite E1. destruct (needs_cellular_tag a d); simpl; [|done].
      intros Hfresh. apply NoDup_cons. split; [|done].
      intros Hin. apply (Hfresh (get d "id")); [left; apply list_elem_of_here | tauto].
    + revert Hfresh. rewrite E2. destruct (needs_wifi_tag a d); simpl; [|done].
      intros Hfresh. apply NoDup_cons. split; [|done].
      intros Hin. apply (Hfresh (get d "id")); [right; left; apply list_elem_of_here | tauto].
    + revert Hfresh. rewrite E3. destruct (has_stray_cellular_tag a d); simpl; [|done].
      intros Hfresh. apply NoDup_cons. split; [|done].
      intros Hin. apply (Hfresh (get d "id"));
        [right; right; left; apply list_elem_of_here | tauto].
    + revert Hfresh. rewrite E4. destruct (has_stray_wifi_tag a d); simpl; [|done].
      intros Hfresh. apply NoDup_cons. split; [|done].
      intros Hin. apply (Hfresh (get d "id"));
        [right; right; right; apply list_elem_of_here | tauto].
Qed.

Lemma queues_have_no_duplicates_fleet :
  ∃ p, plan quiet (default_args true) [D1; D2; D3] = Ok p ∧
       NoDup (tag_cellular p) ∧ NoDup (tag_wifi p) ∧
       NoDup (untag_cellular p) ∧ NoDup (untag_wifi p).
Proof.
  eexists. split; [vm_compute; reflexivity|].
  apply (queues_have_no_duplicates quiet (default_args true) [D1; D2; D3]).
  - vm_compute. repeat (apply NoDup_cons; split;
      [intros H; repeat (apply elem_of_cons in H as [H|H]; [discriminate|]);
       by apply not_elem_of_nil in H|]).
    apply NoDup_nil_2.
  - vm_compute. reflexivity.
Defined.

Lemma tag_in_snoc_other t u ts : u ≠ t → tag_in t (ts ++ [VStr u]) = tag_in t ts.
Proof.
  intros Hne. rewrite tag_in_app; simpl.
  apply String.eqb_neq in Hne. by rewrite Hne, !orb_false_r.
Qed.

(** A tag that is neither policy tag plays no part in the queues: when
    the loop completes on a fleet with the tag on a device and on the
    same fleet without it, the two plans are the same. *)
Theorem unrelated_tag_is_ignored logger a (d : device) ts u l1 l2 p p' :
  current_tags d = Ok ts →
  u ≠ cellular_tag a →
  u ≠ wifi_tag a →
  plan logger a (l1 ++ <["tags" := VList (ts ++ [VStr u])]> d :: l2) = Ok p' →
  plan logger a (l1 ++ d :: l2) = Ok p →
  p' = p.
Proof.
  intros Hts Hc Hw (p1' & p2' & H1' & _ & H2' & ->)%plan_split
    (p1 & p2 & H1 & _ & H2 & ->)%plan_split.
  rewrite H1 in H1'. rewrite H2 in H2'. injection H1' as <-. injection H2' as <-.
  do 2 f_equal.
  assert (Hts' : current_tags (<["tags" := VList (ts ++ [VStr u])]> d) = Ok (ts ++ [VStr u])).
  { apply current_tags_insert. rewrite forallb_app; simpl.
    by rewrite (current_tags_hashable d ts Hts). }
  unfold device_plan, processed, tags_of. rewrite get_id_insert_tags, Hts, Hts'.
  destruct (truthy (get d "id")); [|done].
  unfold single_plan.
  by rewrite has_cell_insert_tags, get_id_insert_tags,
    !(tag_in_snoc_other _ u ts Hc), !(tag_in_snoc_other _ u ts Hw).
Qed.

Lemma unrelated_tag_is_ignored_D1 :
  {| tag_cellular := [VStr "D1"]; tag_wifi := [VStr "D2"];
     untag_cellular := [VStr "D2"]; untag_wifi := [VStr "D1"] |} = fleet_queues.
Proof.
  apply (unrelated_tag_is_ignored quiet (default_args true) D1 [VStr "Curbside_iPad"]
           "Floor_2" [D2] [D3]).
  - reflexivity.
  - discriminate.
  - discriminate.
  - vm_compute. reflexivity.
  - vm_compute. reflexivity.
Defined.

(** A record without identifier costs one log call and nothing else: the
    loop completes on a fleet with the record exactly when that call is
    answered and the loop completes on the fleet without it, and the
    plans are the same, whatever the other fields of the record hold. *)
Theorem skipped_record_adds_nothing logger a (d : device) l1 l2 p :
  truthy (get d "id") = false →
  plan logger a (l1 ++ d :: l2) = Ok p ↔
  logger (InfoProcessing d) = Ok tt ∧ plan logger a (l1 ++ l2) = Ok p.
Proof.
  intros Hid. rewrite !plan_app, plan_cons, plan_single, process_device_factor.
  unfold device_lines, device_result, processed. rewrite Hid. simpl.
  destruct (plan logger a l1) as [p1|e1]; simpl; [|split; [done | by intros [_ ?]]].
  destruct (logger (InfoProcessing d)) as [[]|e]; simpl.
  - destruct (plan logger a l2) as [p2|e2]; simpl.
    + rewrite qapp_nil_l. split; [by intros [= <-] | by intros [_ ?]].
    + split; [done | by intros [_ ?]].
  - split; [done | by intros [? _]].
Qed.

(** Scenario E: [no_id] has no identifier and unreadable tags. *)
Lemma skipped_record_scenario_E :
  plan quiet (default_args true) ([D1] ++ no_id :: [D2]) =
    Ok {| tag_cellular := [VStr "D1"]; tag_wifi := [VStr "D2"];
          untag_cellular := [VStr "D2"]; untag_wifi := [VStr "D1"] |} ↔
  quiet (InfoProcessing no_id) = Ok tt ∧
  plan quiet (default_args true) ([D1] ++ [D2]) =
    Ok {| tag_cellular := [VStr "D1"]; tag_wifi := [VStr "D2"];
          untag_cellular := [VStr "D2"]; untag_wifi := [VStr "D1"] |}.
Proof.
  apply (skipped_record_adds_nothing quiet (default_args true) no_id [D1] [D2]).
  reflexivity.
Defined.

(** A processed record whose ["tags"] is missing or [None] has the empty
    tag set: reading it does not raise, and in every plan the record is
    part of, its identifier is added, once, to the add queue of its
    capability and to no other queue; the plan is the one the same record
    gives with [tags = []]. *)
Theorem null_tags_read_as_empty logger a (d : device) l1 l2 p :
  get d "tags" = VNone →
  truthy (get d "id") = true →
  plan logger a (l1 ++ d :: l2) = Ok p →
  current_tags d = Ok [] ∧
  (∃ p1 p2, plan logger a l1 = Ok p1 ∧ plan logger a l2 = Ok p2 ∧
     tag_cellular p =
       tag_cellular p1 ++ (if has_cell d then [get d "id"] else []) ++ tag_cellular p2 ∧
     tag_wifi p =
       tag_wifi p1 ++ (if has_cell d then [] else [get d "id"]) ++ tag_wifi p2 ∧
     untag_cellular p = untag_cellular p1 ++ untag_cellular p2 ∧
     untag_wifi p = untag_wifi p1 ++ untag_wifi p2) ∧
  (∀ p', plan logger a (l1 ++ <["tags" := VList []]> d :: l2) = Ok p' → p' = p).
Proof.
  intros Htags Hid Hp.
  assert (Hts : current_tags d = Ok []) by (unfold current_tags; by rewrite Htags).
  assert (Hplan : device_plan a d =
            {| tag_cellular := if has_cell d then [get d "id"] else [];
               tag_wifi := if has_cell d then [] else [get d "id"];
               untag_cellular := []; untag_wifi := [] |}).
  { rewrite (device_plan_processed a d []) by done. unfold single_plan; simpl.
    rewrite !andb_false_r. by destruct (has_cell d). }
  apply plan_split in Hp as (p1 & p2 & H1 & _ & H2 & ->).
  split; [done|]. split.
  - exists p1, p2. rewrite Hplan. simpl. by repeat split.
  - intros p' (p1' & p2' & H1' & _ & H2' & ->)%plan_split.
    rewrite H1 in H1'. rewrite H2 in H2'. injection H1' as <-. injection H2' as <-.
    do 2 f_equal. rewrite Hplan.
    rewrite (device_plan_processed a _ []).
    + unfold single_plan; simpl.
      rewrite has_cell_insert_tags, get_id_insert_tags, !andb_false_r.
      by destruct (has_cell d).
    + by rewrite get_id_insert_tags.
    + unfold current_tags. by rewrite get_tags_insert_tags.
Qed.

Lemma null_tags_example :
  current_tags null_tags = Ok [] ∧
  (∃ p1 p2, plan quiet (default_args true) [D1] = Ok p1 ∧
            plan quiet (default_args true) [D2] = Ok p2 ∧
     tag_cellular fleet_and_D4_queues =
       tag_cellular p1 ++ (if has_cell null_tags then [get null_tags "id"] else []) ++
       tag_cellular p2 ∧
     tag_wifi fleet_and_D4_queues =
       tag_wifi p1 ++ (if has_cell null_tags then [] else [get null_tags "id"]) ++
       tag_wifi p2 ∧
     untag_cellular fleet_and_D4_queues =
       untag_cellular p1 ++ untag_cellular p2 ∧
     untag_wifi fleet_and_D4_queues =
       untag_wifi p1 ++ untag_wifi p2) ∧
  (∀ p', plan quiet (default_args true)
           ([D1] ++ <["tags" := VList []]> null_tags :: [D2]) = Ok p' →
         p' = fleet_and_D4_queues).
Proof.
  apply (null_tags_read_as_empty quiet (default_args true) null_tags [D1] [D2]).
  - reflexivity.
  - reflexivity.
  - vm_compute. reflexivity.
Defined.

(** * The tail of [main]: submitting the queues *)

Lemma perform_app logger dashboard s1 s2 :
  perform logger dashboard (s1 ++ s2) =
  match perform logger dashboard s1 with
  | (Ok _, sent1) =>
      let (r, sent2) := perform logger dashboard s2 in (r, sent1 ++ sent2)
  | (Raise e, sent1) => (Raise e, sent1)
  end.
Proof.
  induction s1 as [|s s1 IH]; simpl.
  - by destruct (perform logger dashboard s2).
  - destruct (do_step logger dashboard s) as [[]|e]; [|done].
    rewrite IH. destruct (perform logger dashboard s1) as [[[]|e] sent1]; [|done].
    destruct (perform logger dashboard s2). by rewrite app_assoc.
Qed.

Lemma perform_sends logger dashboard ms :
  perform logger dashboard (map Send ms) = issue_until_rejected dashboard ms.
Proof.
  induction ms as [|m ms IH]; simpl; [done|].
  destruct (modifyNetworkSmDevicesTags dashboard m) as [[]|e]; [|done].
  by rewrite IH.
Qed.

(** The calls sent are the first of the calls of the steps, in order. *)
Lemma perform_prefix logger dashboard steps :
  snd (perform logger dashboard steps) `prefix_of` concat (map sent_by steps).
Proof.
  induction steps as [|s steps IH]; simpl; [done|].
  destruct (do_step logger dashboard s) as [[]|e]; simpl.
  - destruct (perform logger dashboard steps); simpl in *. by apply prefix_app.
  - apply prefix_app_r. done.
Qed.

(** All steps were taken exactly when none raised. *)
Lemma perform_ok_iff logger dashboard steps sent :
  perform logger dashboard steps = (Ok tt, sent) ↔
  Forall (fun s => do_step logger dashboard s = Ok tt) steps ∧
  sent = concat (map sent_by steps).
Proof.
  revert sent. induction steps as [|s steps IH]; intros sent; simpl.
  - split; [by intros [= <-] | by intros [_ ->]].
  - destruct (do_step logger dashboard s) as [[]|e] eqn:Hs.
    + destruct (perform logger dashboard steps) as [r sent'] eqn:Hp. split.
      * intros [= -> <-]. destruct (proj1 (IH sent') eq_refl) as [Hall ->].
        split; [by constructor | done].
      * intros [[_ Hall]%Forall_cons ->].
        pose proof (proj2 (IH _) (conj Hall eq_refl)) as H.
        injection H as -> ->. done.
    + split; [done|]. intros [[H _]%Forall_cons _]. congruence.
Qed.

(** A call that the service rejects is the last call made, and its
    exception is the outcome. *)
Lemma perform_rejected_last logger dashboard steps r sent l1 m l2 e :
  perform logger dashboard steps = (r, sent) →
  sent = l1 ++ m :: l2 →
  modifyNetworkSmDevicesTags dashboard m = Raise e →
  l2 = [] ∧ r = Raise e.
Proof.
  intros Hp Hsent Hm. revert r sent l1 Hp Hsent.
  induction steps as [|s steps IH]; intros r sent l1; simpl.
  - intros [= <- <-] H. by destruct l1.
  - destruct (do_step logger dashboard s) as [[]|e0] eqn:Hs.
    + destruct (perform logger dashboard steps) as [r' sent'] eqn:Hp.
      intros [= <- <-]. destruct s as [line|m0]; simpl.
      * intros H. by apply (IH r' sent' l1).
      * simpl in Hs. destruct l1 as [|x l1]; simpl.
        -- intros [= -> _]. congruence.
        -- intros [= _ H]. by apply (IH r' sent' l1).
    + intros [= <- <-]. destruct s as [line|m0]; simpl.
      * intros H. by destruct l1.
      * simpl in Hs. destruct l1 as [|x l1]; simpl.
        -- intros [= -> <-]. split; [done|]. congruence.
        -- intros [= _ H]. by destruct l1.
Qed.

Lemma performs_say logger dashboard line :
  performs logger dashboard (say logger line) [Say line].
Proof.
  intros log. unfold say; simpl.
  destruct (logger line) as [[]|e]; simpl; by rewrite app_nil_r.
Qed.

Lemma performs_batch_modify_tags logger dashboard network_id serials tag action :
  performs logger dashboard (batch_modify_tags dashboard network_id serials tag action)
    (map Send (batch_calls network_id serials tag action)).
Proof. intros log. rewrite perform_sends. apply batch_modify_tags_outcome. Qed.

Lemma performs_nothing logger dashboard : performs logger dashboard (sm_ret tt) [].
Proof. intros log. unfold sm_ret; simpl. by rewrite app_nil_r. Qed.

Lemma performs_bind logger dashboard (c1 c2 : sm unit) s1 s2 :
  performs logger dashboard c1 s1 → performs logger dashboard c2 s2 →
  performs logger dashboard (sm_bind c1 (fun _ => c2)) (s1 ++ s2).
Proof.
  intros H1 H2 log. unfold sm_bind. rewrite H1, perform_app.
  destruct (perform logger dashboard s1) as [[[]|e] sent1]; simpl; [|done].
  rewrite H2. destruct (perform logger dashboard s2) as [r sent2]; simpl.
  by rewrite app_assoc.
Qed.

(** A queue under its guard: announced, then sent in batches. *)
Lemma performs_guarded logger dashboard network_id serials tag action line (b : bool) :
  performs logger dashboard
    (if b then
       sm_bind (say logger line) (fun _ =>
         batch_modify_tags dashboard network_id serials tag action)
     else sm_ret tt)
    (guarded b line (batch_calls network_id serials tag action)).
Proof.
  unfold guarded. destruct b; [|apply performs_nothing].
  apply (performs_bind _ _ _ _ [Say line]);
    [apply performs_say | apply performs_batch_modify_tags].
Qed.

Lemma performs_submit logger dashboard network_id a q :
  performs logger dashboard (submit logger dashboard network_id a q)
    (submit_steps network_id a q).
Proof.
  unfold submit, submit_steps. cbv zeta.
  apply performs_bind; [apply performs_guarded|].
  apply performs_bind; [apply performs_guarded|].
  destruct (remove_wrong a); [|apply performs_nothing].
  apply performs_bind; apply performs_guarded.
Qed.

Lemma run_submit logger dashboard network_id a q :
  run (submit logger dashboard network_id a q) =
  perform logger dashboard (submit_steps network_id a q).
Proof.
  unfold run. rewrite performs_submit. simpl.
  by destruct (perform logger dashboard (submit_steps network_id a q)).
Qed.

Lemma sent_by_sends ms : concat (map sent_by (map Send ms)) = ms.
Proof. induction ms as [|m ms IH]; simpl; [done | by rewrite IH]. Qed.

(** A guard is off only on an empty queue, so the calls of a guarded
    queue are the batches of the queue. *)
Lemma sent_by_guarded (b : bool) line network_id serials tag action :
  (b = false → serials = []) →
  concat (map sent_by (guarded b line (batch_calls network_id serials tag action))) =
  batch_calls network_id serials tag action.
Proof.
  intros Hb. unfold guarded. destruct b; simpl; [apply sent_by_sends|].
  by rewrite Hb.
Qed.

Lemma length_test_false {A} (l : list A) : (0 <? length l) = false → l = [].
Proof. by destruct l. Qed.

Lemma truthy_list_false l : truthy (VList l) = false → l = [].
Proof. by destruct l. Qed.

Lemma sent_by_submit_steps network_id a q :
  concat (map sent_by (submit_steps network_id a q)) = submit_calls network_id a q.
Proof.
  unfold submit_steps, submit_calls.
  rewrite !map_app, !concat_app.
  rewrite !sent_by_guarded by apply length_test_false.
  destruct (remove_wrong a); [|done].
  rewrite map_app, concat_app.
  by rewrite !sent_by_guarded by apply truthy_list_false.
Qed.


(** The submission runs to its end exactly when every line is written
    and every call accepted; the calls made are then the queues in a fixed
    order: the cellular adds, the wifi adds and then, only with
    [--remove-wrong], the cellular removes and the wifi removes. *)
Theorem submit_order logger dashboard network_id a q calls :
  run (submit logger dashboard network_id a q) = (Ok tt, calls) ↔
  Forall (fun s => do_step logger dashboard s = Ok tt) (submit_steps network_id a q) ∧
  calls =
    batch_calls network_id (tag_cellular q) (cellular_tag a) "add" ++
    batch_calls network_id (tag_wifi q) (wifi_tag a) "add" ++
    (if remove_wrong a then
       batch_calls network_id (untag_cellular q) (cellular_tag a) "delete" ++
       batch_calls network_id (untag_wifi q) (wifi_tag a) "delete"
     else []).
Proof.
  rewrite run_submit, perform_ok_iff, sent_by_submit_steps. done.
Qed.

(** Scenario queues against an accepting service: four calls in order. *)
Example submit_order_fleet :
  run (submit quiet accepting "N_1" (default_args true) fleet_queues) =
  (Ok tt,
   batch_calls "N_1" [VStr "D1"] "Store_Ipad" "add" ++
   batch_calls "N_1" [VStr "D2"] "Curbside_iPad" "add" ++
   batch_calls "N_1" [VStr "D2"] "Store_Ipad" "delete" ++
   batch_calls "N_1" [VStr "D1"] "Curbside_iPad" "delete").
Proof. vm_compute. reflexivity. Qed.

(** A call that the service rejects ends the whole submission: it is the
    last call made, the batches and queues after it are never sent, and
    its exception is passed on. *)
Theorem submit_stops_at_rejection logger dashboard network_id a q r calls l1 m l2 e :
  run (submit logger dashboard network_id a q) = (r, calls) →
  calls = l1 ++ m :: l2 →
  modifyNetworkSmDevicesTags dashboard m = Raise e →
  l2 = [] ∧ r = Raise e.
Proof. rewrite run_submit. apply perform_rejected_last. Qed.

(** The wifi adds are rejected: the cellular adds stay sent, and neither
    remove queue is submitted. *)
Lemma submit_stops_at_wifi_adds :
  run (submit quiet rejects_wifi_tag "N_1" (default_args true) fleet_queues) =
    (Raise RemoteError,
     [{| networkId := "N_1"; ids := [VStr "D1"]; tags := ["Store_Ipad"];
         updateAction := "add" |}] ++
     {| networkId := "N_1"; ids := [VStr "D2"]; tags := ["Curbside_iPad"];
        updateAction := "add" |} :: []) ∧
  modifyNetworkSmDevicesTags rejects_wifi_tag
    {| networkId := "N_1"; ids := [VStr "D2"]; tags := ["Curbside_iPad"];
       updateAction := "add" |} = Raise RemoteError ∧
  ([] : list mutation) = [] ∧ Raise RemoteError = (Raise RemoteError : result unit).
Proof.
  split; [vm_compute; reflexivity|]. split; [reflexivity|].
  apply (submit_stops_at_rejection quiet rejects_wifi_tag "N_1" (default_args true)
           fleet_queues (Raise RemoteError)
           ([{| networkId := "N_1"; ids := [VStr "D1"]; tags := ["Store_Ipad"];
                updateAction := "add" |}] ++
            {| networkId := "N_1"; ids := [VStr "D2"]; tags := ["Curbside_iPad"];
               updateAction := "add" |} :: [])
           [{| networkId := "N_1"; ids := [VStr "D1"]; tags := ["Store_Ipad"];
               updateAction := "add" |}]
           {| networkId := "N_1"; ids := [VStr "D2"]; tags := ["Curbside_iPad"];
              updateAction := "add" |}
           [] RemoteError).
  - vm_compute. reflexivity.
  - reflexivity.
  - reflexivity.
Defined.

Example submit_rejected_wifi_adds_run :
  run (submit quiet rejects_wifi_tag "N_1" (default_args true) fleet_queues) =
  (Raise RemoteError,
   [{| networkId := "N_1"; ids := [VStr "D1"]; tags := ["Store_Ipad"];
       updateAction := "add" |};
    {| networkId := "N_1"; ids := [VStr "D2"]; tags := ["Curbside_iPad"];
       updateAction := "add" |}]).
Proof. vm_compute. reflexivity. Qed.

Lemma Forall_prefix {A} (P : A → Prop) (l1 l2 : list A) :
  l1 `prefix_of` l2 → Forall P l2 → Forall P l1.
Proof. intros [k ->] H. by apply Forall_app in H as [H _]. Qed.

Lemma batch_calls_shape network_id serials tag action :
  Forall (fun m => networkId m = network_id ∧ 0 < length (ids m) ≤ 20 ∧
                   updateAction m = action ∧ tags m = [tag] ∧ ids m ⊆ serials)
         (batch_calls network_id serials tag action).
Proof.
  unfold batch_calls. apply Forall_map; simpl.
  destruct (batches_spec serials) as (_ & _ & Hle).
  pose proof (batches_nonempty serials) as Hpos.
  apply Forall_lookup. intros k b Hk.
  pose proof (Forall_lookup_1 _ _ _ _ Hle Hk) as H1.
  pose proof (Forall_lookup_1 _ _ _ _ Hpos Hk) as H2.
  apply lookup_batches in Hk as [_ ->]. unfold max_batch in *.
  repeat split; try done.
  etrans; [apply subseteq_take | apply subseteq_drop].
Qed.

Lemma submitted_prefix logger dashboard network_id a q :
  snd (run (submit logger dashboard network_id a q)) `prefix_of`
  submit_calls network_id a q.
Proof. rewrite run_submit, <- sent_by_submit_steps. apply perform_prefix. Qed.

(** Without [--remove-wrong] no ["delete"] call is ever made, whatever
    the queues hold and whatever the service answers. *)
Theorem submit_without_remove_wrong_only_adds logger dashboard network_id a q :
  remove_wrong a = false →
  Forall (fun m => updateAction m = "add")
         (snd (run (submit logger dashboard network_id a q))).
Proof.
  intros Hrw.
  eapply Forall_prefix; [apply submitted_prefix|].
  unfold submit_calls. rewrite Hrw, app_nil_r.
  apply Forall_app. split;
    (eapply Forall_impl; [apply batch_calls_shape|]; by intros m (_ & _ & ? & _)).
Qed.

Lemma submit_without_remove_wrong_fleet :
  Forall (fun m => updateAction m = "add")
         (snd (run (submit quiet accepting "N_1" (default_args false) fleet_queues))).
Proof.
  apply (submit_without_remove_wrong_only_adds quiet accepting "N_1" (default_args false)
           fleet_queues).
  reflexivity.
Defined.

(** Every call the submission makes, whatever the service answers, is
    for the given network and carries between 1 and 20 identifiers of one
    queue, with that queue's single tag and action. *)
Theorem submitted_calls_are_planned logger dashboard network_id a q :
  Forall (planned_call network_id a q)
         (snd (run (submit logger dashboard network_id a q))).
Proof.
  eapply Forall_prefix; [apply submitted_prefix|].
  unfold submit_calls, planned_call.
  apply Forall_app. split; [|apply Forall_app; split].
  - eapply Forall_impl; [apply batch_calls_shape|].
    intros m (? & ? & ? & ? & ?). split; [done|]. split; [done|]. left. done.
  - eapply Forall_impl; [apply batch_calls_shape|].
    intros m (? & ? & ? & ? & ?). split; [done|]. split; [done|]. right; left. done.
  - destruct (remove_wrong a); [|constructor].
    apply Forall_app. split.
    + eapply Forall_impl; [apply batch_calls_shape|].
      intros m (? & ? & ? & ? & ?). split; [done|]. split; [done|].
      right; right; left. done.
    + eapply Forall_impl; [apply batch_calls_shape|].
      intros m (? & ? & ? & ? & ?). split; [done|]. split; [done|].
      right; right; right. done.
Qed.

(** * [main] from start to end *)

Lemma key_truthy key : truthy (VStr key) = true ↔ key ≠ "".
Proof.
  simpl. destruct (String.eqb_spec key ""); simpl; split; congruence.
Qed.

Lemma main_with_truthy_key logger lower key connect ns :
  key ≠ "" →
  main logger lower (Some key) connect ns = main_with_key logger lower key connect ns.
Proof. intros Hkey%key_truthy. unfold main. by rewrite Hkey. Qed.

Lemma main_without_key logger lower api_key connect ns :
  api_key = None ∨ api_key = Some "" →
  main logger lower api_key connect ns = exit_without_key logger.
Proof. by intros [-> | ->]. Qed.

Lemma api_key_cases (api_key : option string) :
  (api_key = None ∨ api_key = Some "") ∨ ∃ key, api_key = Some key ∧ key ≠ "".
Proof.
  destruct api_key as [key|]; [|by left; left].
  destruct (String.eqb_spec key "") as [->|Hne]; [by left; right|].
  right. by exists key.
Qed.

(** The run with a key raises [SystemExit] only when the [try] fails
    and the failure could be logged. *)
Lemma main_with_key_system_exit logger lower key connect ns msg calls :
  main_with_key logger lower key connect ns = (SystemExit msg, calls) ↔
  msg = unresolved_message ∧ calls = [] ∧
  ∃ session e, connect key = Ok session ∧
               resolve_and_report logger lower (api session) ns = Raise e ∧
               logger (ErrorException e) = Ok tt.
Proof.
  unfold main_with_key.
  destruct (connect key) as [session|e0];
    [|split; [done | by intros (_ & _ & s & e & [=] & _)]].
  destruct (resolve_and_report logger lower (api session) ns) as [nid|e] eqn:Hres.
  - split; [|by intros (_ & _ & s & e & [= <-] & He & _); congruence].
    destruct (getNetworkSmDevices session nid) as [devices|e]; [|done].
    destruct (logger (InfoTotal (length devices))) as [[]|e]; [|done].
    destruct (plan logger (ns_args ns) devices) as [q|e]; [|done].
    destruct (run _) as [[[]|e] sent]; [|done].
    by destruct (logger InfoComplete) as [[]|e].
  - destruct (logger (ErrorException e)) as [[]|e'] eqn:Hlog.
    + split.
      * intros [= <- <-]. repeat split. by exists session, e.
      * by intros (-> & -> & _).
    + split; [done|]. intros (_ & _ & s & e1 & [= <-] & He & Hl). congruence.
Qed.

(** [main] raises [SystemExit] only before any mutation call: with the
    configuration message exactly when the API key is unset or empty and
    that could be logged, and with the resolution message exactly when
    the key is set, the client was built, the [try] block raised and that
    could be logged. *)
Theorem main_system_exit_before_any_call logger lower api_key connect ns :
  (∀ msg calls, main logger lower api_key connect ns = (SystemExit msg, calls) →
     calls = [] ∧ (msg = missing_key_message ∨ msg = unresolved_message)) ∧
  (main logger lower api_key connect ns = (SystemExit missing_key_message, []) ↔
     (api_key = None ∨ api_key = Some "") ∧ logger ErrorApiKeyMissing = Ok tt) ∧
  (main logger lower api_key connect ns = (SystemExit unresolved_message, []) ↔
     ∃ key session e, api_key = Some key ∧ key ≠ "" ∧ connect key = Ok session ∧
       resolve_and_report logger lower (api session) ns = Raise e ∧
       logger (ErrorException e) = Ok tt).
Proof.
  assert (Hmsg : unresolved_message ≠ missing_key_message) by discriminate.
  destruct (api_key_cases api_key) as [Hno | (key & -> & Hkey)].
  - rewrite (main_without_key _ _ _ _ _ Hno). unfold exit_without_key.
    destruct (logger ErrorApiKeyMissing) as [[]|e]; (split; [|split]).
    + intros msg calls [= <- <-]. split; [done | by left].
    + split; [done | by intros _].
    + split; [intros [= H]; congruence|].
      intros (key & s & e & -> & Hne & _). by destruct Hno as [|[= ->]].
    + by intros msg calls.
    + split; [done | by intros [_ ?]].
    + split; [done|]. intros (key & s & e' & -> & Hne & _). by destruct Hno as [|[= ->]].
  - rewrite (main_with_truthy_key _ _ _ _ _ Hkey). split; [|split].
    + intros msg calls (-> & -> & _)%main_with_key_system_exit. split; [done | by right].
    + split.
      * intros (H & _)%main_with_key_system_exit. congruence.
      * by intros [[[=]|[= ->]] _].
    + rewrite main_with_key_system_exit. split.
      * intros (_ & _ & s & e & ? & ? & ?). by exists key, s, e.
      * intros (k & s & e & [= <-] & _ & ? & ? & ?). repeat split. by exists s, e.
Qed.

Lemma plan_ok_readable logger a devices p :
  plan logger a devices = Ok p →
  Forall (fun d => processed d = true → unreadable (get d "tags") = false) devices.
Proof.
  revert p. induction devices as [|d rest IH]; intros p; [constructor|].
  intros (pr & Hr & [_ Hd]%plan_single_ok & _)%plan_cons_ok.
  constructor; [|by apply (IH pr)].
  intros Hp. apply device_result_ok in Hd as [_ Hts].
  by apply (current_tags_readable d (tags_of d)), Hts.
Qed.

Lemma unreadable_tags_no_plan logger a devices p :
  Exists (fun d => processed d = true ∧ unreadable (get d "tags") = true) devices →
  plan logger a devices ≠ Ok p.
Proof.
  intros Hex Hp. apply plan_ok_readable in Hp.
  apply Exists_exists in Hex as (d & Hd & Hproc & Hu).
  pose proof (proj1 (Forall_forall _ _) Hp d Hd Hproc). congruence.
Qed.

(** Planning is finished before the first call: when a listed record
    that is not skipped has unreadable tags, [main] does not complete and
    not a single tag is changed, not even on the records listed before
    it. *)
Theorem main_unreadable_tags_abort_before_any_call
    logger lower key connect ns session network_id devices :
  key ≠ "" →
  connect key = Ok session →
  resolve_network_id lower (api session) (ns_network_name ns) (ns_org_name ns) =
    Ok network_id →
  getNetworkSmDevices session network_id = Ok devices →
  Exists (fun d => processed d = true ∧ unreadable (get d "tags") = true) devices →
  snd (main logger lower (Some key) connect ns) = [] ∧
  fst (main logger lower (Some key) connect ns) ≠ Completed.
Proof.
  intros Hkey Hconn Hres Hdev Hbad.
  rewrite (main_with_truthy_key _ _ _ _ _ Hkey). unfold main_with_key, resolve_and_report.
  rewrite Hconn, Hres. simpl.
  destruct (logger (InfoResolved _ _)) as [[]|e]; simpl.
  - rewrite Hdev. destruct (logger (InfoTotal _)) as [[]|e]; [|done].
    destruct (plan logger (ns_args ns) devices) as [q|e] eqn:Hplan; [|done].
    by apply unreadable_tags_no_plan in Hplan.
  - by destruct (logger (ErrorException e)) as [[]|e'].
Qed.

Lemma main_numeric_tags_abort :
  snd (main quiet str_lower (Some "k3y")
         (fun _ => Ok (session_with [D1; numeric_tags; D2])) store_ipads) = [] ∧
  fst (main quiet str_lower (Some "k3y")
         (fun _ => Ok (session_with [D1; numeric_tags; D2])) store_ipads) ≠ Completed.
Proof.
  apply (main_unreadable_tags_abort_before_any_call quiet str_lower "k3y"
           (fun _ => Ok (session_with [D1; numeric_tags; D2])) store_ipads
           (session_with [D1; numeric_tags; D2]) "N_21" [D1; numeric_tags; D2]).
  - discriminate.
  - reflexivity.
  - vm_compute. reflexivity.
  - reflexivity.
  - apply Exists_cons_tl, Exists_cons_hd. split; reflexivity.
Defined.

(** [main] runs to completion exactly when the key is set, the client is
    built, the names resolve, the devices are listed, the plan is built,
    every line is written and the service accepts every planned call; the
    calls made are then exactly the planned calls, for the resolved
    network, in submission order. *)
Theorem main_completes_iff logger lower api_key connect ns calls :
  main logger lower api_key connect ns = (Completed, calls) ↔
  ∃ key session network_id devices q,
    api_key = Some key ∧ key ≠ "" ∧
    connect key = Ok session ∧
    resolve_network_id lower (api session) (ns_network_name ns) (ns_org_name ns) =
      Ok network_id ∧
    logger (InfoResolved (ns_network_name ns) network_id) = Ok tt ∧
    getNetworkSmDevices session network_id = Ok devices ∧
    logger (InfoTotal (length devices)) = Ok tt ∧
    plan logger (ns_args ns) devices = Ok q ∧
    Forall (fun s => do_step logger (api session) s = Ok tt)
           (submit_steps network_id (ns_args ns) q) ∧
    logger InfoComplete = Ok tt ∧
    calls = submit_calls network_id (ns_args ns) q.
Proof.
  split.
  - destruct (api_key_cases api_key) as [Hno | (key & -> & Hkey)].
    { rewrite (main_without_key _ _ _ _ _ Hno). unfold exit_without_key.
      by destruct (logger ErrorApiKeyMissing) as [[]|e]. }
    rewrite (main_with_truthy_key _ _ _ _ _ Hkey). unfold main_with_key, resolve_and_report.
    destruct (connect key) as [session|e] eqn:Hconn; [|done].
    destruct (resolve_network_id _ _ _ _) as [nid|e] eqn:Hres; simpl;
      [|by destruct (logger (ErrorException e)) as [[]|e']].
    destruct (logger (InfoResolved _ _)) as [[]|e] eqn:Hl1; simpl;
      [|by destruct (logger (ErrorException e)) as [[]|e']].
    destruct (getNetworkSmDevices session nid) as [devices|e] eqn:Hdev; [|done].
    destruct (logger (InfoTotal _)) as [[]|e] eqn:Hl2; [|done].
    destruct (plan _ _ _) as [q|e] eqn:Hplan; [|done].
    destruct (run _) as [[[]|e] sent] eqn:Hrun; [|done].
    destruct (logger InfoComplete) as [[]|e] eqn:Hl3; [|done].
    intros [= <-]. rewrite run_submit in Hrun.
    apply perform_ok_iff in Hrun as [Hall ->]. rewrite sent_by_submit_steps.
    exists key, session, nid, devices, q. by repeat (split; [done|]).
  - intros (key & session & nid & devices & q & -> & Hkey & Hconn & Hres & Hl1 & Hdev &
            Hl2 & Hplan & Hall & Hl3 & ->).
    rewrite (main_with_truthy_key _ _ _ _ _ Hkey). unfold main_with_key, resolve_and_report.
    rewrite Hconn, Hres. simpl. rewrite Hl1. simpl. rewrite Hdev, Hl2, Hplan, run_submit.
    rewrite (proj2 (perform_ok_iff _ _ _ _) (conj Hall eq_refl)), Hl3.
    by rewrite sent_by_submit_steps.
Qed.

(** The three scenario devices, from the key to the last line. *)
Example main_fleet_run :
  main quiet str_lower (Some "k3y") (fun _ => Ok (session_with [D1; D2; D3])) store_ipads =
  (Completed, submit_calls "N_21" (default_args true) fleet_queues).
Proof. vm_compute. reflexivity. Qed.




Example main_steady_state_run :
  main quiet str_lower (Some "k3y")
    (fun _ => Ok (rejecting_session_with [D3; no_id])) store_ipads = (Completed, []).
Proof. vm_compute. reflexivity. Qed.

(** When the service rejects a call, [main] ends with that exception:
    the rejected call is the last call made and the rest of the plan is
    dropped. *)
Theorem main_stops_at_rejection
    logger lower key connect ns session x calls l1 m l2 e :
  connect key = Ok session →
  main logger lower (Some key) connect ns = (x, calls) →
  calls = l1 ++ m :: l2 →
  modifyNetworkSmDevicesTags (api session) m = Raise e →
  l2 = [] ∧ x = Uncaught e.
Proof.
  intros Hconn Hmain Hcalls Hm.
  assert (Hne : calls ≠ []) by (rewrite Hcalls; by destruct l1).
  unfold main in Hmain. destruct (truthy (VStr key)).
  2:{ unfold exit_without_key in Hmain.
      destruct (logger ErrorApiKeyMissing) as [[]|e0]; injection Hmain as <- <-; done. }
  unfold main_with_key in Hmain. rewrite Hconn in Hmain.
  destruct (resolve_and_report _ _ _ _) as [nid|e0].
  2:{ destruct (logger (ErrorException e0)) as [[]|e1]; injection Hmain as <- <-; done. }
  destruct (getNetworkSmDevices session nid) as [devices|e0];
    [|injection Hmain as <- <-; done].
  destruct (logger (InfoTotal _)) as [[]|e0]; [|injection Hmain as <- <-; done].
  destruct (plan _ _ _) as [q|e0]; [|injection Hmain as <- <-; done].
  destruct (run _) as [r sent] eqn:Hrun.
  assert (sent = calls) as ->.
  { destruct r as [[]|e0]; [destruct (logger InfoComplete) as [[]|e1]|];
      by injection Hmain as _ <-. }
  rewrite run_submit in Hrun.
  destruct (perform_rejected_last logger (api session) _ r calls l1 m l2 e Hrun Hcalls Hm)
    as [-> ->].
  split; [done|]. by injection Hmain as <-.
Qed.

(** The three scenario devices, with the wifi adds rejected: [D1] got
    its cellular tag, and nothing was removed. *)
Lemma main_stops_at_wifi_adds :
  main quiet str_lower (Some "k3y")
    (fun _ => Ok (wifi_rejecting_session_with [D1; D2; D3])) store_ipads =
    (Uncaught RemoteError,
     [{| networkId := "N_21"; ids := [VStr "D1"]; tags := ["Store_Ipad"];
         updateAction := "add" |}] ++
     {| networkId := "N_21"; ids := [VStr "D2"]; tags := ["Curbside_iPad"];
        updateAction := "add" |} :: []) ∧
  modifyNetworkSmDevicesTags (api (wifi_rejecting_session_with [D1; D2; D3]))
    {| networkId := "N_21"; ids := [VStr "D2"]; tags := ["Curbside_iPad"];
       updateAction := "add" |} = Raise RemoteError ∧
  ([] : list mutation) = [] ∧ Uncaught RemoteError = Uncaught RemoteError.
Proof.
  split; [vm_compute; reflexivity|]. split; [reflexivity|].
  apply (main_stops_at_rejection quiet str_lower "k3y"
           (fun _ => Ok (wifi_rejecting_session_with [D1; D2; D3])) store_ipads
           (wifi_rejecting_session_with [D1; D2; D3])
           (Uncaught RemoteError)
           ([{| networkId := "N_21"; ids := [VStr "D1"]; tags := ["Store_Ipad"];
                updateAction := "add" |}] ++
            {| networkId := "N_21"; ids := [VStr "D2"]; tags := ["Curbside_iPad"];
               updateAction := "add" |} :: [])
           [{| networkId := "N_21"; ids := [VStr "D1"]; tags := ["Store_Ipad"];
               updateAction := "add" |}]
           {| networkId := "N_21"; ids := [VStr "D2"]; tags := ["Curbside_iPad"];
              updateAction := "add" |}
           [] RemoteError).
  - reflexivity.
  - vm_compute. reflexivity.
  - reflexivity.
  - reflexivity.
Defined.

Example main_rejected_wifi_adds_run :
  main quiet str_lower (Some "k3y")
    (fun _ => Ok (wifi_rejecting_session_with [D1; D2; D3])) store_ipads =
  (Uncaught RemoteError,
   [{| networkId := "N_21"; ids := [VStr "D1"]; tags := ["Store_Ipad"];
       updateAction := "add" |};
    {| networkId := "N_21"; ids := [VStr "D2"]; tags := ["Curbside_iPad"];
       updateAction := "add" |}]).
Proof. vm_compute. reflexivity. Qed.

(** The organization name of the request holds a closing markup tag:
    the resolution fails, writing the failure to the log raises, and the
    run ends in that exception instead of [SystemExit]. *)
Example main_error_line_raises :
  main (fun line => match line with ErrorException _ => Raise MarkupError | _ => Ok tt end)
    str_lower (Some "k3y") (fun _ => Ok (session_with [D3]))
    {| ns_org_name := "[/x]"; ns_network_name := "STORE IPADS";
       ns_args := default_args true |} =
  (Uncaught MarkupError, []).
Proof. vm_compute. reflexivity. Qed.
